(** * ZOF solver: the six root-finding methods of ZOF_Project

    A shallow embedding of [ZOF_Project/app.py] and [ZOF_Project/ZOF_CLI.py].
    The two files carry the same [safe_eval], [derivative] and six solver
    functions; the web copy returns a result dictionary with the trace, the
    command-line copy prints each row and returns [(root, i, error)].  The
    embedding follows the web copy.

    - Python's exceptions are values of [exn]; a function that may raise
      returns a [Result], and [x <- m ;; k] stops at the first one raised.
    - The solver code is written once over a numeric type [num] with the
      operations Python applies to it ([Number]), as the Python code itself
      is.  The program runs it on IEEE binary64 floats ([float_Number], on
      Rocq's primitive floats), and the theorems are about the code on any
      [num] or on floats.  The instance on rationals ([Q_Number]) runs the
      same code in exact arithmetic in one example, for comparison.
    - [eval] is Python's builtin of that name on expressions already parsed,
      for a fragment of the syntax: float literals, names, unary and binary
      arithmetic, calls, and member access for the members of [math] listed
      in [math_member].  Every form of the fragment evaluates all its parts;
      Python's short-circuit and conditional forms, strings, subscripts and
      lambdas are outside it, and so are Python's integers, which are exact
      and unbounded: a value [VNum] is a float.  The name [__debug__] is a
      constant to the compiler, [True] or [False], and stands here for the
      float it is in arithmetic.
    - The transcendental functions of [math] and float exponentiation are
      functions of the host, taken as a parameter ([Host]), each returning a
      float or raising.
    - The readers and [main] of the command-line copy run on a terminal
      ([console]): the lines still to be read and the texts written so far.
      [str.strip], the conversions [float] and [int] of a line, and the six
      printing solvers [main] calls are parameters. *)

From Stdlib Require Import ZArith QArith Qabs Bool Lia String List.
From Stdlib Require Import Floats.
Import ListNotations.

Set Warnings "-inexact-float,-register-all".

(** ** Exceptions and results *)

Inductive exn_class : Set :=
| ValueError
| TypeError
| ZeroDivisionError
| AttributeError
| OverflowError.

(** [Exn cls msg] is an exception object of class [cls] with [str(e) = msg]. *)
Inductive exn : Set :=
| Exn (cls : exn_class) (msg : string).

Definition str (e : exn) : string :=
  match e with Exn _ msg => msg end.

Definition exn_cls (e : exn) : exn_class :=
  match e with Exn cls _ => cls end.

Inductive Result (A : Type) : Type :=
| Ok (a : A)
| Raise (e : exn).

Arguments Ok {A} a.
Arguments Raise {A} e.

Definition bind {A B : Type} (m : Result A) (k : A -> Result B) : Result B :=
  match m with
  | Ok a => k a
  | Raise e => Raise e
  end.

Declare Scope result_scope.
Delimit Scope result_scope with result.
Notation "x <- m ;; k" := (bind m (fun x => k))
  (at level 61, m at next level, right associativity) : result_scope.
Open Scope result_scope.
Open Scope string_scope.
Open Scope list_scope.

(** The four error kinds of the specification are all [ValueError]s in the
    source, told apart by their message. *)
Definition EvaluationError (e : exn) : exn :=
  Exn ValueError ("Error evaluating expression: " ++ str e)%string.

Definition PreconditionError : exn :=
  Exn ValueError "f(a) and f(b) must have opposite signs".

Definition ConvergenceError : exn :=
  Exn ValueError "Maximum iterations reached without convergence".

Definition SingularityError_secant : exn :=
  Exn ValueError "Division by zero in secant method".

Definition SingularityError_newton : exn :=
  Exn ValueError "Derivative too close to zero".

Definition SingularityError_modified_secant : exn :=
  Exn ValueError "Division by zero in modified secant method".

Definition is_SingularityError (e : exn) : Prop :=
  e = SingularityError_secant \/ e = SingularityError_newton \/
  e = SingularityError_modified_secant.

(** ** Numbers *)

(** The operations the solvers and the evaluator apply to numbers.  [two],
    [tiny] and [h_default] are the literals [2], [1e-14] and [1e-7]; [one]
    and [zero] are also what [True] and [False] are in arithmetic. *)
Class Number (num : Type) : Type := {
  zero : num;
  one : num;
  two : num;
  tiny : num;
  h_default : num;
  add : num -> num -> num;
  sub : num -> num -> num;
  mul : num -> num -> num;
  div : num -> num -> num;
  neg : num -> num;
  abs : num -> num;
  ltb : num -> num -> bool;
  eqb : num -> num -> bool
}.

Declare Scope num_scope.
Delimit Scope num_scope with num.
Infix "+" := add : num_scope.
Infix "-" := sub : num_scope.
Infix "*" := mul : num_scope.
Infix "/" := div : num_scope.
Infix "<?" := ltb : num_scope.
Notation "x >? y" := (ltb y x) (only parsing) : num_scope.
Infix "=?" := eqb : num_scope.

(** Python floats. *)
#[export] Instance float_Number : Number float := {
  zero := 0%float;
  one := 1%float;
  two := 2%float;
  tiny := 1e-14%float;
  h_default := 1e-7%float;
  add := PrimFloat.add;
  sub := PrimFloat.sub;
  mul := PrimFloat.mul;
  div := PrimFloat.div;
  neg := PrimFloat.opp;
  abs := PrimFloat.abs;
  ltb := PrimFloat.ltb;
  eqb := PrimFloat.eqb
}.

(** Exact arithmetic. *)
#[export] Instance Q_Number : Number Q := {
  zero := 0%Q;
  one := 1%Q;
  two := 2%Q;
  tiny := (1 # 100000000000000)%Q;
  h_default := (1 # 10000000)%Q;
  add := Qplus;
  sub := Qminus;
  mul := Qmult;
  div := Qdiv;
  neg := Qopp;
  abs := Qabs;
  ltb := fun x y => negb (Qle_bool y x);
  eqb := Qeq_bool
}.

(** What the host gives besides arithmetic on [num]: the members of the
    module [math] the namespace uses, exponentiation ([**] and the builtin
    [pow] on two floats), and the interpreter's [__debug__], which is [True]
    unless Python runs with [-O]. *)
Record Host (num : Type) : Type := {
  debug : bool;
  math_pi : num;
  math_e : num;
  math_sin : num -> Result num;
  math_cos : num -> Result num;
  math_tan : num -> Result num;
  math_exp : num -> Result num;
  math_log : num -> Result num;
  math_sqrt : num -> Result num;
  float_pow : num -> num -> Result num
}.

Arguments debug {num} _.
Arguments math_pi {num} _.
Arguments math_e {num} _.
Arguments math_sin {num} _ _.
Arguments math_cos {num} _ _.
Arguments math_tan {num} _ _.
Arguments math_exp {num} _ _.
Arguments math_log {num} _ _.
Arguments math_sqrt {num} _ _.
Arguments float_pow {num} _ _ _.

(** ** Expressions and their values *)

Inductive builtin : Set :=
| Bsin | Bcos | Btan | Bexp | Blog | Bsqrt | Babs | Bpow.

Inductive math_member : Set :=
| Msin | Mcos | Mtan | Mexp | Mlog | Msqrt | Mpi | Me.

Inductive operator : Set := Add | Sub | Mult | Div | Pow.

Inductive unaryop : Set := UAdd | USub.

Section Evaluator.

Context {num : Type} {N : Number num}.
Variable host : Host num.

Local Open Scope num_scope.

(** The objects an expression of the fragment can denote. *)
Inductive value : Type :=
| VNum (v : num)
| VNone
| VModule
| VFunc (f : builtin).

(** The syntax trees of the fragment, named as in Python's [ast]. *)
Inductive expr : Type :=
| Constant (v : num)
| Name (id : string)
| UnaryOp (op : unaryop) (operand : expr)
| BinOp (left : expr) (op : operator) (right : expr)
| Call (func : expr) (args : list expr)
| Attribute (obj : expr) (attr : math_member).

Definition type_error : exn := Exn TypeError "unsupported operand type(s)".

(** [x / y] on Python floats raises on a zero divisor. *)
Definition truediv (x y : num) : Result num :=
  if y =? zero then Raise (Exn ZeroDivisionError "float division by zero")
  else Ok (x / y).

(** A Python object used as a number. *)
Definition number (v : value) : Result num :=
  match v with
  | VNum n => Ok n
  | _ => Raise type_error
  end.

Definition namespace : Type := list (string * value).

Fixpoint lookup (id : string) (d : namespace) : option value :=
  match d with
  | [] => None
  | (k, v) :: d' => if String.eqb k id then Some v else lookup id d'
  end.

(** Name resolution inside [eval(expr, globals, locals)]: locals, then
    globals, then the builtins, which are [globals["__builtins__"]]: with
    [None] there the last step fails on subscripting [None]. *)
Definition load_name (globals locals : namespace) (id : string) : Result value :=
  match lookup id locals with
  | Some v => Ok v
  | None =>
      match lookup id globals with
      | Some v => Ok v
      | None => Raise (Exn TypeError "'NoneType' object is not subscriptable")
      end
  end.

Definition unary (op : unaryop) (v : value) : Result value :=
  match v with
  | VNum n => Ok (VNum match op with UAdd => n | USub => neg n end)
  | _ => Raise type_error
  end.

Definition binary (op : operator) (l r : value) : Result value :=
  match l, r with
  | VNum a, VNum b =>
      match op with
      | Add => Ok (VNum (a + b))
      | Sub => Ok (VNum (a - b))
      | Mult => Ok (VNum (a * b))
      | Div => q <- truediv a b ;; Ok (VNum q)
      | Pow => p <- float_pow host a b ;; Ok (VNum p)
      end
  | _, _ => Raise type_error
  end.

Definition getattr (v : value) (m : math_member) : Result value :=
  match v with
  | VModule =>
      Ok match m with
         | Msin => VFunc Bsin
         | Mcos => VFunc Bcos
         | Mtan => VFunc Btan
         | Mexp => VFunc Bexp
         | Mlog => VFunc Blog
         | Msqrt => VFunc Bsqrt
         | Mpi => VNum (math_pi host)
         | Me => VNum (math_e host)
         end
  | _ => Raise (Exn AttributeError "object has no such attribute")
  end.

(** Calling an object.  [math.log] takes an optional base. *)
Definition call (f : value) (args : list value) : Result value :=
  match f with
  | VFunc b =>
      match b, args with
      | Bsin, [VNum a] => r <- math_sin host a ;; Ok (VNum r)
      | Bcos, [VNum a] => r <- math_cos host a ;; Ok (VNum r)
      | Btan, [VNum a] => r <- math_tan host a ;; Ok (VNum r)
      | Bexp, [VNum a] => r <- math_exp host a ;; Ok (VNum r)
      | Blog, [VNum a] => r <- math_log host a ;; Ok (VNum r)
      | Blog, [VNum a; VNum base] =>
          n <- math_log host a ;;
          d <- math_log host base ;;
          q <- truediv n d ;;
          Ok (VNum q)
      | Bsqrt, [VNum a] => r <- math_sqrt host a ;; Ok (VNum r)
      | Babs, [VNum a] => Ok (VNum (abs a))
      | Bpow, [VNum a; VNum b] => r <- float_pow host a b ;; Ok (VNum r)
      | _, _ => Raise (Exn TypeError "bad arguments")
      end
  | _ => Raise (Exn TypeError "object is not callable")
  end.

(** The compiler replaces the name [__debug__] by a constant before the
    code runs, so it is never looked up: it is [True], or [False] under
    [-O], read here as the number it is in arithmetic. *)
Definition debug_constant : value :=
  VNum (if debug host then one else zero).

Fixpoint eval (globals locals : namespace) (e : expr) : Result value :=
  match e with
  | Constant v => Ok (VNum v)
  | Name id =>
      if String.eqb id "__debug__" then Ok debug_constant
      else load_name globals locals id
  | UnaryOp op operand =>
      v <- eval globals locals operand ;;
      unary op v
  | BinOp l op r =>
      a <- eval globals locals l ;;
      b <- eval globals locals r ;;
      binary op a b
  | Call func args =>
      f <- eval globals locals func ;;
      vs <- (fix eval_args (l : list expr) : Result (list value) :=
               match l with
               | [] => Ok []
               | a :: l' =>
                   v <- eval globals locals a ;;
                   vs <- eval_args l' ;;
                   Ok (v :: vs)
               end) args ;;
      call f vs
  | Attribute obj attr =>
      v <- eval globals locals obj ;;
      getattr v attr
  end.

(** The two dictionaries [safe_eval] passes to [eval]. *)
Definition safe_globals : namespace := [("__builtins__", VNone)].

Definition safe_locals (x_val : num) : namespace :=
  [("x", VNum x_val); ("math", VModule); ("sin", VFunc Bsin); ("cos", VFunc Bcos);
   ("tan", VFunc Btan); ("exp", VFunc Bexp); ("log", VFunc Blog);
   ("sqrt", VFunc Bsqrt); ("pi", VNum (math_pi host)); ("e", VNum (math_e host));
   ("abs", VFunc Babs); ("pow", VFunc Bpow)].

Definition safe_eval (e : expr) (x_val : num) : Result value :=
  match eval safe_globals (safe_locals x_val) e with
  | Ok v => Ok v
  | Raise ex => Raise (EvaluationError ex)
  end.

(** Central difference; [h] defaults to [h_default]. *)
Definition derivative (e : expr) (x_val h : num) : Result num :=
  fp <- safe_eval e (x_val + h) ;;
  fm <- safe_eval e (x_val - h) ;;
  fp <- number fp ;;
  fm <- number fm ;;
  truediv (fp - fm) (two * h).

End Evaluator.

Arguments value num : clear implicits.
Arguments expr num : clear implicits.
Arguments namespace num : clear implicits.

(** ** [for i in range(start, stop)] with a [return] inside *)

Inductive flow (St R : Type) : Type :=
| Continue (s : St)
| Return (r : R).

Arguments Continue {St R} s.
Arguments Return {St R} r.

Section Loop.

Context {St R : Type}.
Variable body : Z -> St -> Result (flow St R).

(** [n] passes from index [i]: [Return r] when a pass returned [r],
    [Continue s] when the loop ran off its end with the locals [s]. *)
Fixpoint for_range_from (n : nat) (i : Z) (s : St) : Result (flow St R) :=
  match n with
  | O => Ok (Continue s)
  | S n' =>
      match body i s with
      | Ok (Continue s') => for_range_from n' (i + 1)%Z s'
      | Ok (Return r) => Ok (Return r)
      | Raise e => Raise e
      end
  end.

Definition for_range (start stop : Z) (s : St) : Result (flow St R) :=
  for_range_from (Z.to_nat (stop - start)) start s.

End Loop.

(** ** The result and trace model *)

Section Solvers.

Context {num : Type} {N : Number num}.
Variable host : Host num.

Local Open Scope num_scope.

(** One row of a method's trace.  [app.py] stores each number of a row
    formatted to eight decimals ([f"{a:.8f}"], [f"{fc:.8e}"]); the rows here
    keep the numbers themselves, as [ZOF_CLI.py] does. *)
Inductive IterationRecord : Type :=
| BracketRow (iteration : Z) (a b c fc error : num)
| SecantRow (iteration : Z) (x0 x1 f1 error : num)
| NewtonRow (iteration : Z) (x fx fpx error : num)
| FixedPointRow (iteration : Z) (x gx fx error : num)
| ModifiedSecantRow (iteration : Z) (x fx fx_delta error : num).

(** The dictionary a solver of [app.py] returns. *)
Record SolveResult : Type := {
  root : num;
  iterations : list IterationRecord;
  total_iterations : Z;
  final_error : num;
  fx : value num
}.

(** The statement after each solver's loop:
    [raise ValueError("Maximum iterations reached without convergence")]. *)
Definition after_loop {St : Type} (l : Result (flow St SolveResult)) : Result SolveResult :=
  match l with
  | Ok (Return r) => Ok r
  | Ok (Continue _) => Raise ConvergenceError
  | Raise e => Raise e
  end.

(** [error < tol or abs(f) < tol] *)
Definition converged (tol error f : num) : bool :=
  (error <? tol) || (abs f <? tol).

(** ** Bisection *)

(** In the solvers a function value is an object until the code computes
    with it or formats it: [number] stands at that first use, where Python
    raises [TypeError] on an object that is not a number. *)
Definition bisection_pass (e : expr num) (tol : num) (i : Z)
    (s : num * num * num * num * list IterationRecord)
    : Result (flow (num * num * num * num * list IterationRecord) SolveResult) :=
  let '(a, b, fa, fb, iterations) := s in
  c <- truediv (a + b) two ;;
  fc <- safe_eval host e c ;;
  error <- truediv (abs (b - a)) two ;;
  fc <- number fc ;;
  let iterations := iterations ++ [BracketRow i a b c fc error] in
  if converged tol error fc then
    Ok (Return {| root := c; iterations := iterations; total_iterations := i;
                  final_error := error; fx := VNum fc |})
  else if fa * fc <? zero then Ok (Continue (a, c, fa, fc, iterations))
  else Ok (Continue (c, b, fc, fb, iterations)).

Definition bisection_method (e : expr num) (a b tol : num) (max_iter : Z)
    : Result SolveResult :=
  let iterations := [] in
  fa <- safe_eval host e a ;;
  fb <- safe_eval host e b ;;
  fa <- number fa ;;
  fb <- number fb ;;
  if fa * fb >? zero then Raise PreconditionError
  else after_loop (for_range (bisection_pass e tol) 1 (max_iter + 1)
                     (a, b, fa, fb, iterations)).

(** ** Regula falsi *)

Definition regula_falsi_pass (e : expr num) (tol : num) (i : Z)
    (s : num * num * num * list IterationRecord)
    : Result (flow (num * num * num * list IterationRecord) SolveResult) :=
  let '(a, b, c_old, iterations) := s in
  fa <- safe_eval host e a ;;
  fb <- safe_eval host e b ;;
  fa <- number fa ;;
  fb <- number fb ;;
  c <- truediv (a * fb - b * fa) (fb - fa) ;;
  fc <- safe_eval host e c ;;
  let error := if (i >? 1)%Z then abs (c - c_old) else abs (b - a) in
  fc <- number fc ;;
  let iterations := iterations ++ [BracketRow i a b c fc error] in
  if converged tol error fc then
    Ok (Return {| root := c; iterations := iterations; total_iterations := i;
                  final_error := error; fx := VNum fc |})
  else if fa * fc <? zero then Ok (Continue (a, c, c, iterations))
  else Ok (Continue (c, b, c, iterations)).

Definition regula_falsi_method (e : expr num) (a b tol : num) (max_iter : Z)
    : Result SolveResult :=
  let iterations := [] in
  let c_old := a in
  after_loop (for_range (regula_falsi_pass e tol) 1 (max_iter + 1)
                (a, b, c_old, iterations)).

(** ** Secant *)

Definition secant_pass (e : expr num) (tol : num) (i : Z)
    (s : num * num * list IterationRecord)
    : Result (flow (num * num * list IterationRecord) SolveResult) :=
  let '(x0, x1, iterations) := s in
  f0 <- safe_eval host e x0 ;;
  f1 <- safe_eval host e x1 ;;
  f1 <- number f1 ;;
  f0 <- number f0 ;;
  if abs (f1 - f0) <? tiny then Raise SingularityError_secant
  else
    q <- truediv (f1 * (x1 - x0)) (f1 - f0) ;;
    let x2 := x1 - q in
    let error := abs (x2 - x1) in
    let iterations := iterations ++ [SecantRow i x0 x1 f1 error] in
    if converged tol error f1 then
      fx2 <- safe_eval host e x2 ;;
      Ok (Return {| root := x2; iterations := iterations; total_iterations := i;
                    final_error := error; fx := fx2 |})
    else Ok (Continue (x1, x2, iterations)).

Definition secant_method (e : expr num) (x0 x1 tol : num) (max_iter : Z)
    : Result SolveResult :=
  let iterations := [] in
  after_loop (for_range (secant_pass e tol) 1 (max_iter + 1) (x0, x1, iterations)).

(** ** Newton-Raphson *)

Definition newton_raphson_pass (e : expr num) (tol : num) (i : Z)
    (s : num * list IterationRecord)
    : Result (flow (num * list IterationRecord) SolveResult) :=
  let '(x, iterations) := s in
  fx <- safe_eval host e x ;;
  fpx <- derivative host e x h_default ;;
  if abs fpx <? tiny then Raise SingularityError_newton
  else
    fx <- number fx ;;
    q <- truediv fx fpx ;;
    let x_new := x - q in
    let error := abs (x_new - x) in
    let iterations := iterations ++ [NewtonRow i x fx fpx error] in
    if converged tol error fx then
      fx_new <- safe_eval host e x_new ;;
      Ok (Return {| root := x_new; iterations := iterations; total_iterations := i;
                    final_error := error; fx := fx_new |})
    else Ok (Continue (x_new, iterations)).

Definition newton_raphson_method (e : expr num) (x0 tol : num) (max_iter : Z)
    : Result SolveResult :=
  let iterations := [] in
  let x := x0 in
  after_loop (for_range (newton_raphson_pass e tol) 1 (max_iter + 1) (x, iterations)).

(** ** Fixed-point iteration *)

Definition fixed_point_pass (e g_expr : expr num) (tol : num) (i : Z)
    (s : num * list IterationRecord)
    : Result (flow (num * list IterationRecord) SolveResult) :=
  let '(x, iterations) := s in
  g_x <- safe_eval host g_expr x ;;
  fx <- safe_eval host e x ;;
  g_x <- number g_x ;;
  let error := abs (g_x - x) in
  fx <- number fx ;;
  let iterations := iterations ++ [FixedPointRow i x g_x fx error] in
  if converged tol error fx then
    fx_new <- safe_eval host e g_x ;;
    Ok (Return {| root := g_x; iterations := iterations; total_iterations := i;
                  final_error := error; fx := fx_new |})
  else Ok (Continue (g_x, iterations)).

Definition fixed_point_method (e g_expr : expr num) (x0 tol : num) (max_iter : Z)
    : Result SolveResult :=
  let iterations := [] in
  let x := x0 in
  after_loop (for_range (fixed_point_pass e g_expr tol) 1 (max_iter + 1) (x, iterations)).

(** ** Modified secant *)

Definition modified_secant_pass (e : expr num) (delta tol : num) (i : Z)
    (s : num * list IterationRecord)
    : Result (flow (num * list IterationRecord) SolveResult) :=
  let '(x, iterations) := s in
  fx <- safe_eval host e x ;;
  fx_delta <- safe_eval host e (x + delta * x) ;;
  fx_delta <- number fx_delta ;;
  fx <- number fx ;;
  if abs (fx_delta - fx) <? tiny then Raise SingularityError_modified_secant
  else
    q <- truediv (fx * (delta * x)) (fx_delta - fx) ;;
    let x_new := x - q in
    let error := abs (x_new - x) in
    let iterations := iterations ++ [ModifiedSecantRow i x fx fx_delta error] in
    if converged tol error fx then
      fx_new <- safe_eval host e x_new ;;
      Ok (Return {| root := x_new; iterations := iterations; total_iterations := i;
                    final_error := error; fx := fx_new |})
    else Ok (Continue (x_new, iterations)).

Definition modified_secant_method (e : expr num) (x0 delta tol : num) (max_iter : Z)
    : Result SolveResult :=
  let iterations := [] in
  let x := x0 in
  after_loop (for_range (modified_secant_pass e delta tol) 1 (max_iter + 1)
                (x, iterations)).

(** ** Dispatch *)

(** A parsed request: one constructor per method token of [solve()] in
    [app.py] (and per menu entry of [main()] in [ZOF_CLI.py]), carrying the
    arguments the front end passes to the solver. *)
Inductive request : Type :=
| bisection (e : expr num) (a b tol : num) (max_iter : Z)
| regula_falsi (e : expr num) (a b tol : num) (max_iter : Z)
| secant (e : expr num) (x0 x1 tol : num) (max_iter : Z)
| newton_raphson (e : expr num) (x0 tol : num) (max_iter : Z)
| fixed_point (e g_expr : expr num) (x0 tol : num) (max_iter : Z)
| modified_secant (e : expr num) (x0 delta tol : num) (max_iter : Z).

Definition solve (q : request) : Result SolveResult :=
  match q with
  | bisection e a b tol max_iter => bisection_method e a b tol max_iter
  | regula_falsi e a b tol max_iter => regula_falsi_method e a b tol max_iter
  | secant e x0 x1 tol max_iter => secant_method e x0 x1 tol max_iter
  | newton_raphson e x0 tol max_iter => newton_raphson_method e x0 tol max_iter
  | fixed_point e g_expr x0 tol max_iter => fixed_point_method e g_expr x0 tol max_iter
  | modified_secant e x0 delta tol max_iter =>
      modified_secant_method e x0 delta tol max_iter
  end.

Definition equation (q : request) : expr num :=
  match q with
  | bisection e _ _ _ _ | regula_falsi e _ _ _ _ | secant e _ _ _ _
  | newton_raphson e _ _ _ | fixed_point e _ _ _ _ | modified_secant e _ _ _ _ => e
  end.

Definition tolerance (q : request) : num :=
  match q with
  | bisection _ _ _ tol _ | regula_falsi _ _ _ tol _ | secant _ _ _ tol _
  | newton_raphson _ _ tol _ | fixed_point _ _ _ tol _
  | modified_secant _ _ _ tol _ => tol
  end.

Definition max_iterations (q : request) : Z :=
  match q with
  | bisection _ _ _ _ m | regula_falsi _ _ _ _ m | secant _ _ _ _ m
  | newton_raphson _ _ _ m | fixed_point _ _ _ _ m | modified_secant _ _ _ _ m => m
  end.

(** ** Reading a row *)

Definition row_iteration (r : IterationRecord) : Z :=
  match r with
  | BracketRow i _ _ _ _ _ | SecantRow i _ _ _ _ | NewtonRow i _ _ _ _
  | FixedPointRow i _ _ _ _ | ModifiedSecantRow i _ _ _ _ => i
  end.

Definition row_error (r : IterationRecord) : num :=
  match r with
  | BracketRow _ _ _ _ _ err | SecantRow _ _ _ _ err | NewtonRow _ _ _ _ err
  | FixedPointRow _ _ _ _ err | ModifiedSecantRow _ _ _ _ err => err
  end.

(** The point of the row whose function value the stopping rule reads: the
    new point [c] of a bracketing method, the latest iterate of the others. *)
Definition row_candidate (r : IterationRecord) : num :=
  match r with
  | BracketRow _ _ _ c _ _ => c
  | SecantRow _ _ x1 _ _ => x1
  | NewtonRow _ x _ _ _ | FixedPointRow _ x _ _ _ | ModifiedSecantRow _ x _ _ _ => x
  end.

Definition row_f (r : IterationRecord) : num :=
  match r with
  | BracketRow _ _ _ _ fc _ => fc
  | SecantRow _ _ _ f1 _ => f1
  | NewtonRow _ _ fx _ _ | FixedPointRow _ _ _ fx _ | ModifiedSecantRow _ _ fx _ _ => fx
  end.

Definition row_converged (tol : num) (r : IterationRecord) : bool :=
  converged tol (row_error r) (row_f r).

(** The end of a pass as all six solvers have it: append the row, and on
    [error < tol or abs(f) < tol] return the result (whose [fx] is [f_root],
    the function value at the new root, evaluated then), else go on with
    the locals [next]. *)
Definition conclude {V : Type} (tol : num) (i : Z) (tr : list IterationRecord)
    (row : IterationRecord) (new_root : num) (f_root : Result (value num))
    (next : V) : Result (flow (V * list IterationRecord) SolveResult) :=
  let iterations := tr ++ [row] in
  if row_converged tol row then
    v <- f_root ;;
    Ok (Return {| root := new_root; iterations := iterations;
                  total_iterations := i; final_error := row_error row; fx := v |})
  else Ok (Continue (next, iterations)).

(** What one loop pass of a solver does when it gets as far as its
    convergence check: it has appended exactly one row, numbered with the
    pass index and holding the function value at the row's candidate; it
    returns when the row meets the stopping rule and goes on otherwise. *)
Definition pass_spec {V : Type} (e : expr num) (tol : num)
    (pass : Z -> V * list IterationRecord ->
            Result (flow (V * list IterationRecord) SolveResult)) : Prop :=
  forall (i : Z) (v : V) (tr : list IterationRecord),
    match pass i (v, tr) with
    | Ok (Continue (_, tr')) =>
        exists row, tr' = tr ++ [row] /\ row_iteration row = i /\
          safe_eval host e (row_candidate row) = Ok (VNum (row_f row)) /\
          row_converged tol row = false
    | Ok (Return r) =>
        exists row, iterations r = tr ++ [row] /\ row_iteration row = i /\
          safe_eval host e (row_candidate row) = Ok (VNum (row_f row)) /\
          row_converged tol row = true /\
          total_iterations r = i /\ final_error r = row_error row
    | Raise _ => True
    end.

(** The part of [pass_spec] about the trace alone. *)
Definition appends_one_row {V : Type}
    (pass : Z -> V * list IterationRecord ->
            Result (flow (V * list IterationRecord) SolveResult)) : Prop :=
  forall (i : Z) (v : V) (tr : list IterationRecord),
    match pass i (v, tr) with
    | Ok (Continue (_, tr')) =>
        exists row, tr' = tr ++ [row] /\ row_iteration row = i
    | Ok (Return r) =>
        exists row, iterations r = tr ++ [row] /\ row_iteration row = i /\
          total_iterations r = i
    | Raise _ => True
    end.

(** The trace of a successful run: every row but the last fails the stopping
    rule, the last one meets it, and the result reports the last row. *)
Definition stops_at_first (e : expr num) (tol : num) (r : SolveResult) : Prop :=
  exists rows row,
    iterations r = rows ++ [row] /\
    Forall (fun q => row_converged tol q = false) rows /\
    row_converged tol row = true /\
    Forall (fun q => safe_eval host e (row_candidate q) = Ok (VNum (row_f q)))
           (iterations r) /\
    total_iterations r = row_iteration row /\
    final_error r = row_error row.

(** Rows numbered [i], [i+1], ... *)
Fixpoint numbered_from (i : Z) (rows : list IterationRecord) : Prop :=
  match rows with
  | [] => True
  | row :: rows' => row_iteration row = i /\ numbered_from (i + 1) rows'
  end.

End Solvers.

Arguments IterationRecord num : clear implicits.
Arguments SolveResult num : clear implicits.
Arguments request num : clear implicits.

(** ** Where a solver's loop starts *)

Section Exhaustion.

Context {num : Type} {N : Number num}.
Variable host : Host num.

Local Open Scope num_scope.

(** [runs_off_end q rows]: the loop of the request is entered and makes all
    its [max_iterations q] passes without one of them returning or raising,
    and [rows] is the trace they leave. *)
Definition runs_off_end (q : request num) (rows : list (IterationRecord num)) : Prop :=
  match q with
  | bisection e a b tol max_iter =>
      exists fa fb v,
        safe_eval host e a = Ok (VNum fa) /\ safe_eval host e b = Ok (VNum fb) /\
        (fa * fb >? zero) = false /\
        for_range (bisection_pass host e tol) 1 (max_iter + 1) (a, b, fa, fb, [])
          = Ok (Continue (v, rows))
  | regula_falsi e a b tol max_iter =>
      exists v,
        for_range (regula_falsi_pass host e tol) 1 (max_iter + 1) (a, b, a, [])
          = Ok (Continue (v, rows))
  | secant e x0 x1 tol max_iter =>
      exists v,
        for_range (secant_pass host e tol) 1 (max_iter + 1) (x0, x1, [])
          = Ok (Continue (v, rows))
  | newton_raphson e x0 tol max_iter =>
      exists v,
        for_range (newton_raphson_pass host e tol) 1 (max_iter + 1) (x0, [])
          = Ok (Continue (v, rows))
  | fixed_point e g_expr x0 tol max_iter =>
      exists v,
        for_range (fixed_point_pass host e g_expr tol) 1 (max_iter + 1) (x0, [])
          = Ok (Continue (v, rows))
  | modified_secant e x0 delta tol max_iter =>
      exists v,
        for_range (modified_secant_pass host e delta tol) 1 (max_iter + 1) (x0, [])
          = Ok (Continue (v, rows))
  end.

(** The exceptions a loop pass can raise: a failed evaluation, a non-number
    used as a number, a zero divisor, or a singularity guard. *)
Definition raised_in_pass (ex : exn) : Prop :=
  (exists inner, ex = EvaluationError inner) \/
  exn_cls ex = TypeError \/
  exn_cls ex = ZeroDivisionError \/
  is_SingularityError ex.

End Exhaustion.

(** ** The names of an expression *)

(** The identifiers an expression refers to ([Name] nodes; the member after
    a dot is not one). *)
Fixpoint names {num : Type} (e : expr num) : list string :=
  match e with
  | Constant _ => []
  | Name id => [id]
  | UnaryOp _ operand => names operand
  | BinOp l _ r => names l ++ names r
  | Call func args => names func ++ flat_map names args
  | Attribute obj _ => names obj
  end.

(** The permitted set as the specification lists it. *)
Definition listed_names : list string :=
  ["x"; "sin"; "cos"; "tan"; "exp"; "log"; "sqrt"; "abs"; "pow"; "pi"; "e"].

(** The keys of the two dictionaries of [safe_eval]. *)
Definition bound_names : list string :=
  ["x"; "math"; "sin"; "cos"; "tan"; "exp"; "log"; "sqrt"; "pi"; "e"; "abs";
   "pow"; "__builtins__"].

(** [math.sqrt(x)] *)
Definition math_sqrt_x {num : Type} : expr num :=
  Call (Attribute (Name "math") Msqrt) [Name "x"].

(** ** Two hosts to run examples on *)

Definition math_domain_error {A : Type} : Result A :=
  Raise (Exn ValueError "math domain error").

(** The host on floats, as far as primitive floats define it: [math.pi],
    [math.e] and [math.sqrt] are CPython's on IEEE doubles.  The
    transcendental functions and [pow] have no definition on primitive
    floats; on this host their domain is empty, and it runs the expressions
    that call none of them. *)
Definition arith_host : Host float := {|
  debug := true;
  math_pi := 3.141592653589793%float;
  math_e := 2.718281828459045%float;
  math_sin := fun _ => math_domain_error;
  math_cos := fun _ => math_domain_error;
  math_tan := fun _ => math_domain_error;
  math_exp := fun _ => math_domain_error;
  math_log := fun _ => math_domain_error;
  math_sqrt := fun x =>
    if (x <? 0)%float then math_domain_error else Ok (PrimFloat.sqrt x);
  float_pow := fun _ _ => math_domain_error
|}.

(** The same on rationals: the two constants are the rationals the float
    constants denote, and no function of [math] is defined. *)
Definition rational_host : Host Q := {|
  debug := true;
  math_pi := (884279719003555 # 281474976710656)%Q;
  math_e := (6121026514868073 # 2251799813685248)%Q;
  math_sin := fun _ => math_domain_error;
  math_cos := fun _ => math_domain_error;
  math_tan := fun _ => math_domain_error;
  math_exp := fun _ => math_domain_error;
  math_log := fun _ => math_domain_error;
  math_sqrt := fun _ => math_domain_error;
  float_pow := fun _ _ => math_domain_error
|}.

(** [10*x - 9] and [x] *)
Definition ten_x_minus_9 {num : Type} (ten nine : num) : expr num :=
  BinOp (BinOp (Constant ten) Mult (Name "x")) Sub (Constant nine).

Definition just_x {num : Type} : expr num := Name "x".

(** [math.isfinite] *)
Definition isfinite (v : float) : bool :=
  match Prim2SF v with
  | S754_zero _ | S754_finite _ _ _ => true
  | _ => false
  end.

(** [x*x + 1], the function of the specification's example without [**] *)
Definition x_squared_plus_1 : expr float :=
  BinOp (BinOp (Name "x") Mult (Name "x")) Add (Constant 1%float).

(** [x*x - 2] and the iteration function [(x + 2/x)/2] for its root *)
Definition x_squared_minus_2 : expr float :=
  BinOp (BinOp (Name "x") Mult (Name "x")) Sub (Constant 2%float).

Definition heron_step : expr float :=
  BinOp (BinOp (Name "x") Add (BinOp (Constant 2%float) Div (Name "x"))) Div
        (Constant 2%float).

(** [sqrt(x)] and [x - 1] *)
Definition sqrt_x : expr float := Call (Name "sqrt") [Name "x"].

Definition x_minus_1 : expr float := BinOp (Name "x") Sub (Constant 1%float).

(** [(x - 1) - 2**-53], which changes sign between [1.0] and the next float *)
Definition x_minus_1_minus_half_ulp : expr float :=
  BinOp (BinOp (Name "x") Sub (Constant 1%float)) Sub (Constant 0x1p-53%float).

(** ** Shapes of results and traces *)

(** The same request with another iteration bound. *)
Definition with_max_iterations {num : Type} (q : request num) (m : Z)
    : request num :=
  match q with
  | bisection e a b tol _ => bisection e a b tol m
  | regula_falsi e a b tol _ => regula_falsi e a b tol m
  | secant e x0 x1 tol _ => secant e x0 x1 tol m
  | newton_raphson e x0 tol _ => newton_raphson e x0 tol m
  | fixed_point e g_expr x0 tol _ => fixed_point e g_expr x0 tol m
  | modified_secant e x0 delta tol _ => modified_secant e x0 delta tol m
  end.

Definition zero_division : exn := Exn ZeroDivisionError "float division by zero".

(** The expressions a request evaluates. *)
Definition expressions {num : Type} (q : request num) : list (expr num) :=
  match q with
  | bisection e _ _ _ _ => [e]
  | regula_falsi e _ _ _ _ => [e]
  | secant e _ _ _ _ => [e]
  | newton_raphson e _ _ _ => [e]
  | fixed_point e g_expr _ _ _ => [e; g_expr]
  | modified_secant e _ _ _ _ => [e]
  end.

(** Whatever the expression evaluates to is a float: [safe_eval] never
    returns another object (an integer, a function, [None], a module). *)
Definition float_valued (host : Host float) (e : expr float) : Prop :=
  forall (x : float) (v : value float),
    safe_eval host e x = Ok v -> exists f, v = VNum f.

(** The exceptions a request on float-valued expressions can end in: a
    failed evaluation of the expression, the exhausted budget, and one more
    that depends on the method. *)
Definition may_raise (q : request float) (ex : exn) : Prop :=
  (exists inner, ex = EvaluationError inner) \/
  ex = ConvergenceError \/
  match q with
  | bisection _ _ _ _ _ => ex = PreconditionError
  | regula_falsi _ _ _ _ _ => ex = zero_division
  | secant _ _ _ _ _ => ex = SingularityError_secant
  | newton_raphson _ _ _ _ => ex = SingularityError_newton
  | fixed_point _ _ _ _ _ => False
  | modified_secant _ _ _ _ _ => ex = SingularityError_modified_secant
  end.

(** A float that is not negative: a zero, [nan], or positive. *)
Definition not_negative (x : spec_float) : Prop :=
  match x with
  | S754_zero _ | S754_nan => True
  | S754_infinity s | S754_finite s _ _ => s = false
  end.

Section Shapes.

Context {num : Type} {N : Number num}.
Variable host : Host num.

Local Open Scope num_scope.

(** The result carries the value of the expression at its root. *)
Definition reports_root (e : expr num) (r : SolveResult num) : Prop :=
  safe_eval host e (root r) = Ok (fx r).

(** How a result relates to the last row of its trace: a bracketing method
    returns the row's new point; the others return the next iterate, and
    the error is its distance from the row's iterate. *)
Definition closes_trace (r : SolveResult num) : Prop :=
  exists rows row,
    iterations r = rows ++ [row] /\
    final_error r = row_error row /\
    match row with
    | BracketRow _ _ _ c _ _ => root r = c
    | SecantRow _ _ x1 _ err => err = abs (root r - x1)
    | NewtonRow _ x _ _ err => err = abs (root r - x)
    | FixedPointRow _ x gx _ err => root r = gx /\ err = abs (gx - x)
    | ModifiedSecantRow _ x _ _ err => err = abs (root r - x)
    end.

(** [orbit g x rows y]: the rows are the steps [x, g(x), g(g(x)), ...] and
    end at [y]. *)
Fixpoint orbit (g_expr : expr num) (x : num) (rows : list (IterationRecord num))
    (y : num) : Prop :=
  match rows with
  | [] => y = x
  | FixedPointRow _ x' gx _ err :: rows' =>
      x' = x /\ safe_eval host g_expr x = Ok (VNum gx) /\
      err = abs (gx - x) /\ orbit g_expr gx rows' y
  | _ => False
  end.

(** The error estimates of regula falsi: the first row's error is the width
    of its bracket, each later row's the distance of its point from the
    point of the row before. *)
Fixpoint chained_errors (previous : option num) (rows : list (IterationRecord num))
    : Prop :=
  match rows with
  | [] => True
  | BracketRow _ a b c _ err :: rows' =>
      err = match previous with
            | None => abs (b - a)
            | Some c_old => abs (c - c_old)
            end /\
      chained_errors (Some c) rows'
  | _ => False
  end.

Fixpoint last_point (rows : list (IterationRecord num)) : option num :=
  match rows with
  | [] => None
  | [BracketRow _ _ _ c _ _] => Some c
  | [_] => None
  | _ :: rows' => last_point rows'
  end.

(** What a pass of regula falsi keeps: before the first pass the trace is
    empty, afterwards [c_old] is the point of the last row. *)
Definition regula_falsi_state (i : Z)
    (s : num * num * num * list (IterationRecord num)) : Prop :=
  let '(_, _, c_old, tr) := s in
  (1 <= i)%Z /\
  chained_errors None tr /\
  ((i = 1%Z /\ tr = []) \/ ((1 < i)%Z /\ last_point tr = Some c_old)).

(** [bisection_trace e a b fa rows]: the rows are successive passes of
    bisection from the bracket [[a, b]], where [fa] is the function value
    kept for [a].  A row holds its bracket, the midpoint, the function value
    there and half the width; the next row's bracket is the left half when
    [fa * fc < 0] and the right half otherwise. *)
Fixpoint bisection_trace (e : expr num) (a b fa : num)
    (rows : list (IterationRecord num)) : Prop :=
  match rows with
  | [] => True
  | BracketRow _ a' b' c fc err :: rows' =>
      a' = a /\ b' = b /\
      c = (a + b) / two /\
      err = abs (b - a) / two /\
      safe_eval host e c = Ok (VNum fc) /\
      if fa * fc <? zero then bisection_trace e a c fa rows'
      else bisection_trace e c b fc rows'
  | _ :: _ => False
  end.

(** [false_position_trace e a b rows]: the rows are successive passes of
    regula falsi from the bracket [[a, b]].  A row holds its bracket and the
    point [(a*fb - b*fa)/(fb - fa)] for the function values at its
    endpoints, with the function value there; the next row's bracket is
    [[a, c]] when [fa * fc < 0] and [[c, b]] otherwise. *)
Fixpoint false_position_trace (e : expr num) (a b : num)
    (rows : list (IterationRecord num)) : Prop :=
  match rows with
  | [] => True
  | BracketRow _ a' b' c fc _ :: rows' =>
      a' = a /\ b' = b /\
      exists fa fb,
        safe_eval host e a = Ok (VNum fa) /\
        safe_eval host e b = Ok (VNum fb) /\
        truediv (a * fb - b * fa) (fb - fa) = Ok c /\
        safe_eval host e c = Ok (VNum fc) /\
        if fa * fc <? zero then false_position_trace e a c rows'
        else false_position_trace e c b rows'
  | _ :: _ => False
  end.

(** What a pass of bisection keeps: the rows so far lead from the starting
    bracket to the current one, so that any rows that follow from here
    follow from the start. *)
Definition bisection_state (e : expr num) (a b fa : num)
    (s : num * num * num * num * list (IterationRecord num)) : Prop :=
  let '(a', b', fa', _, tr) := s in
  forall rest,
    bisection_trace e a' b' fa' rest ->
    bisection_trace e a b fa (tr ++ rest).

(** The same for regula falsi. *)
Definition false_position_state (e : expr num) (a b : num)
    (s : num * num * num * list (IterationRecord num)) : Prop :=
  let '(a', b', _, tr) := s in
  forall rest,
    false_position_trace e a' b' rest ->
    false_position_trace e a b (tr ++ rest).

End Shapes.

(** ** [math.f] and [f] *)

Definition member_name (m : math_member) : string :=
  match m with
  | Msin => "sin" | Mcos => "cos" | Mtan => "tan" | Mexp => "exp"
  | Mlog => "log" | Msqrt => "sqrt" | Mpi => "pi" | Me => "e"
  end.

(** The expression with every [math.f] written [f]. *)
Fixpoint unqualified {num : Type} (e : expr num) : expr num :=
  match e with
  | Constant v => Constant v
  | Name id => Name id
  | UnaryOp op operand => UnaryOp op (unqualified operand)
  | BinOp l op r => BinOp (unqualified l) op (unqualified r)
  | Call func args => Call (unqualified func) (map unqualified args)
  | Attribute (Name id) m =>
      if String.eqb id "math" then Name (member_name m) else Attribute (Name id) m
  | Attribute obj m => Attribute (unqualified obj) m
  end.

(** ** The command line

    [get_float_input], [get_int_input] and [main] of [ZOF_CLI.py].  The
    terminal is the list of lines still to be read and the list of texts
    written so far, one for each call of [print] or [input]; [input] writes
    its prompt, then takes the next line or raises [EOFError], which the
    readers do not catch.  [str.strip], [float(value)] and [int(value)] are
    parameters: the conversions answer [None] where Python raises
    [ValueError]. *)

Record console : Type := Console {
  stdin : list string;
  stdout : list string
}.

Inductive outcome (A : Type) : Type :=
| Returned (a : A)
| EOFError.

Arguments Returned {A} a.
Arguments EOFError {A}.

Definition input (prompt : string) (c : console) : outcome string * console :=
  match stdin c with
  | [] => (EOFError, Console [] (stdout c ++ [prompt]))
  | line :: lines => (Returned line, Console lines (stdout c ++ [prompt]))
  end.

Definition print (text : string) (c : console) : console :=
  Console (stdin c) (stdout c ++ [text]).

Definition invalid_number : string :=
  "Invalid input. Please enter a valid number.".

Definition invalid_integer : string :=
  "Invalid input. Please enter a valid integer.".

Definition newline : string := String (Ascii.ascii_of_nat 10) EmptyString.

(** [s * n] on strings. *)
Fixpoint times (s : string) (n : nat) : string :=
  match n with
  | O => EmptyString
  | S n => (s ++ times s n)%string
  end.

(** A call of one of the six solvers of [ZOF_CLI.py], which take the
    equation as text and print their table while they run. *)
Inductive cli_call : Type :=
| call_bisection (expr : string) (a b tol : float) (max_iter : Z)
| call_regula_falsi (expr : string) (a b tol : float) (max_iter : Z)
| call_secant (expr : string) (x0 x1 tol : float) (max_iter : Z)
| call_newton_raphson (expr : string) (x0 tol : float) (max_iter : Z)
| call_fixed_point (expr g_expr : string) (x0 tol : float) (max_iter : Z)
| call_modified_secant (expr : string) (x0 delta tol : float) (max_iter : Z).

(** How the process ends: [main] returns, [sys.exit(code)], or the
    [EOFError] of a read outside the [try] block goes uncaught. *)
Inductive ending : Type :=
| Finished
| SystemExit (code : Z)
| Uncaught_EOFError.

(** [str(e)] for the [EOFError] of [input]. *)
Definition eof_message : string := "EOF when reading a line".

Definition banner : list string :=
  [ (newline ++ times "=" 80)%string;
    (times " " 20 ++ "ZERO OF FUNCTIONS (ZOF) SOLVER")%string;
    (times " " 25 ++ "Numerical Methods CLI")%string;
    times "=" 80;
    (newline ++ "Available Methods:")%string;
    "1. Bisection Method";
    "2. Regula Falsi (False Position) Method";
    "3. Secant Method";
    "4. Newton-Raphson Method";
    "5. Fixed Point Iteration Method";
    "6. Modified Secant Method" ].

Definition select_method : string := (newline ++ "Select method (1-6): ")%string.

Section CommandLine.

Variable strip : string -> string.
Variable float_of_string : string -> option float.
Variable int_of_string : string -> option Z.

(** The solvers of [ZOF_CLI.py]: from a call and the terminal, the terminal
    afterwards and, when the solver raised an exception, its message. *)
Variable run : cli_call -> console -> option string * console.

Fixpoint get_float_input (prompt : string) (default : option float)
    (lines : list string) (written : list string) : outcome float * console :=
  match lines with
  | [] => (EOFError, Console [] (written ++ [prompt]))
  | value :: lines =>
      let written := written ++ [prompt] in
      match (if String.eqb (strip value) EmptyString then default else None) with
      | Some default => (Returned default, Console lines written)
      | None =>
          match float_of_string value with
          | Some number => (Returned number, Console lines written)
          | None =>
              get_float_input prompt default lines (written ++ [invalid_number])
          end
      end
  end.

Fixpoint get_int_input (prompt : string) (default : option Z)
    (lines : list string) (written : list string) : outcome Z * console :=
  match lines with
  | [] => (EOFError, Console [] (written ++ [prompt]))
  | value :: lines =>
      let written := written ++ [prompt] in
      match (if String.eqb (strip value) EmptyString then default else None) with
      | Some default => (Returned default, Console lines written)
      | None =>
          match int_of_string value with
          | Some number => (Returned number, Console lines written)
          | None =>
              get_int_input prompt default lines (written ++ [invalid_integer])
          end
      end
  end.

(** What one line gives a reader: the default on a blank line when there is
    one, else the conversion of the line. *)
Definition answer {A : Type} (convert : string -> option A) (default : option A)
    (value : string) : option A :=
  match (if String.eqb (strip value) EmptyString then default else None) with
  | Some default => Some default
  | None => convert value
  end.

(** The texts written while [rejected] lines are refused. *)
Definition retries (prompt complaint : string) (rejected : list string)
    : list string :=
  flat_map (fun _ => [prompt; complaint]) rejected.

(** A read inside the [try] block of [main]: its [EOFError] is caught
    there. *)
Definition read_float (prompt : string) (default : option float) (c : console)
    (k : float -> console -> option string * console) : option string * console :=
  match get_float_input prompt default (stdin c) (stdout c) with
  | (Returned number, c) => k number c
  | (EOFError, c) => (Some eof_message, c)
  end.

(** The body of the [try] block. *)
Definition selected (method : Z) (expr : string) (tol : float) (max_iter : Z)
    (c : console) : option string * console :=
  if (method =? 1)%Z then
    read_float "Enter lower bound a: " None c (fun a c =>
    read_float "Enter upper bound b: " None c (fun b c =>
    run (call_bisection expr a b tol max_iter) c))
  else if (method =? 2)%Z then
    read_float "Enter lower bound a: " None c (fun a c =>
    read_float "Enter upper bound b: " None c (fun b c =>
    run (call_regula_falsi expr a b tol max_iter) c))
  else if (method =? 3)%Z then
    read_float "Enter first initial guess x0: " None c (fun x0 c =>
    read_float "Enter second initial guess x1: " None c (fun x1 c =>
    run (call_secant expr x0 x1 tol max_iter) c))
  else if (method =? 4)%Z then
    read_float "Enter initial guess x0: " None c (fun x0 c =>
    run (call_newton_raphson expr x0 tol max_iter) c)
  else if (method =? 5)%Z then
    let c := print (newline ++ "For f(x) = 0, rearrange to x = g(x)")%string c in
    let c :=
      print "Example: if f(x) = x**2 - 2, then g(x) = sqrt(2) or math.sqrt(2)" c in
    match input "g(x) = " c with
    | (Returned g_expr, c) =>
        read_float "Enter initial guess x0: " None c (fun x0 c =>
        run (call_fixed_point expr g_expr x0 tol max_iter) c)
    | (EOFError, c) => (Some eof_message, c)
    end
  else if (method =? 6)%Z then
    read_float "Enter initial guess x0: " None c (fun x0 c =>
    read_float "Enter delta (default 0.01): " (Some 0.01%float) c (fun delta c =>
    run (call_modified_secant expr x0 delta tol max_iter) c))
  else (None, c).

Definition main (c : console) : ending * console :=
  let c := fold_left (fun c text => print text c) banner c in
  match get_int_input select_method None (stdin c) (stdout c) with
  | (EOFError, c) => (Uncaught_EOFError, c)
  | (Returned method, c) =>
      if negb (existsb (Z.eqb method) [1; 2; 3; 4; 5; 6]%Z) then
        (Finished, print "Invalid method selection." c)
      else
        let c := print (newline ++ "Enter the equation f(x) = 0")%string c in
        let c := print "Example: x**3 - x - 2  or  math.exp(x) - 3*x" c in
        match input "f(x) = " c with
        | (EOFError, c) => (Uncaught_EOFError, c)
        | (Returned expr, c) =>
            match get_float_input "Enter tolerance (default 1e-6): "
                    (Some 1e-6%float) (stdin c) (stdout c) with
            | (EOFError, c) => (Uncaught_EOFError, c)
            | (Returned tol, c) =>
                match get_int_input "Enter maximum iterations (default 100): "
                        (Some 100%Z) (stdin c) (stdout c) with
                | (EOFError, c) => (Uncaught_EOFError, c)
                | (Returned max_iter, c) =>
                    match selected method expr tol max_iter c with
                    | (None, c) => (Finished, c)
                    | (Some e, c) =>
                        (SystemExit 1, print (newline ++ "Error: " ++ e)%string c)
                    end
                end
            end
        end
  end.

End CommandLine.

(** A terminal to run the command line on: [strip] drops blanks at both
    ends, [int] reads an optional sign and decimal digits, [float] reads
    the same as an integer value. *)
Definition is_blank (ch : Ascii.ascii) : bool :=
  Ascii.eqb ch (Ascii.ascii_of_nat 32).

Fixpoint lstrip (s : string) : string :=
  match s with
  | String ch rest => if is_blank ch then lstrip rest else s
  | EmptyString => EmptyString
  end.

Fixpoint rstrip (s : string) : string :=
  match s with
  | String ch rest =>
      match rstrip rest with
      | EmptyString => if is_blank ch then EmptyString else String ch EmptyString
      | rest' => String ch rest'
      end
  | EmptyString => EmptyString
  end.

Definition simple_strip (s : string) : string := rstrip (lstrip s).

Definition digit (ch : Ascii.ascii) : option Z :=
  let n := Ascii.nat_of_ascii ch in
  if (48 <=? n)%nat && (n <=? 57)%nat then Some (Z.of_nat (n - 48)) else None.

Fixpoint digits (acc : Z) (s : string) : option Z :=
  match s with
  | EmptyString => Some acc
  | String ch rest =>
      match digit ch with
      | Some d => digits (10 * acc + d) rest
      | None => None
      end
  end.

Definition simple_int (s : string) : option Z :=
  match simple_strip s with
  | EmptyString => None
  | String ch rest =>
      if Ascii.eqb ch (Ascii.ascii_of_nat 45) then
        match rest with
        | EmptyString => None
        | _ => option_map Z.opp (digits 0 rest)
        end
      else digits 0 (String ch rest)
  end.

Definition float_of_Z (z : Z) : float :=
  if (z <? 0)%Z then PrimFloat.opp (PrimFloat.of_uint63 (Uint63.of_Z (- z)))
  else PrimFloat.of_uint63 (Uint63.of_Z z).

Definition simple_float (s : string) : option float :=
  option_map float_of_Z (simple_int s).

(** Solvers that print nothing and return. *)
Definition quiet_run (call : cli_call) (c : console) : option string * console :=
  (None, c).

(** Solvers that raise the convergence error. *)
Definition failing_run (call : cli_call) (c : console) : option string * console :=
  (Some "Maximum iterations reached without convergence", c).

(** * Properties *)

(** ** The loop *)

Section LoopProperties.

Context {num : Type} {N : Number num}.
Variable host : Host num.
Context {V : Type}.
Variable e : expr num.
Variable tol : num.
Variable pass : Z -> V * list (IterationRecord num) ->
                Result (flow (V * list (IterationRecord num)) (SolveResult num)).
Hypothesis pass_ok : pass_spec host e tol pass.

Let not_yet (q : IterationRecord num) : Prop := row_converged tol q = false.
Let evaluated (q : IterationRecord num) : Prop :=
  safe_eval host e (row_candidate q) = Ok (VNum (row_f q)).

Lemma numbered_from_app (i : Z) (rows : list (IterationRecord num)) (row : IterationRecord num) :
  numbered_from i rows -> row_iteration row = (i + Z.of_nat (length rows))%Z ->
  numbered_from i (rows ++ [row]).
Proof.
  revert i. induction rows as [|q rows IH]; simpl; intros i Hn Hr.
  - split; [lia | exact I].
  - destruct Hn as [Hq Hn]. split; [exact Hq|].
    apply IH; [exact Hn | lia].
Qed.

(** A loop that returns did so in a pass [i + k] with [k < n]; the [k] passes
    before it each appended a row that fails the stopping rule. *)
Lemma loop_return (n : nat) :
  forall (i : Z) (v : V) (tr : list (IterationRecord num)) (r : SolveResult num),
    for_range_from pass n i (v, tr) = Ok (Return r) ->
    exists rows row,
      iterations r = tr ++ rows ++ [row] /\
      (length rows < n)%nat /\
      numbered_from i (rows ++ [row]) /\
      Forall not_yet rows /\
      row_converged tol row = true /\
      Forall evaluated (rows ++ [row]) /\
      total_iterations r = (i + Z.of_nat (length rows))%Z /\
      final_error r = row_error row.
Proof.
  induction n as [|n IH]; intros i v tr r Hrun; simpl in Hrun.
  - discriminate.
  - pose proof (pass_ok i v tr) as Hp.
    destruct (pass i (v, tr)) as [[[v' tr']|r']|ex]; try discriminate.
    + destruct Hp as (row0 & -> & Hi & Hev & Hnc).
      destruct (IH _ _ _ _ Hrun) as (rows & row & Hit & Hlen & Hnum & Hall & Hc & Hevs & Htot & Herr).
      exists (row0 :: rows), row. simpl.
      rewrite Hit, <- app_assoc. simpl.
      repeat split; auto; try lia.
    + injection Hrun as ->.
      destruct Hp as (row & Hit & Hi & Hev & Hc & Htot & Herr).
      exists [], row. simpl.
      repeat split; auto; try lia.
Qed.

(** A loop that runs off its end made [n] passes, none of which met the
    stopping rule. *)
Lemma loop_continue (n : nat) :
  forall (i : Z) (v v' : V) (tr tr' : list (IterationRecord num)),
    for_range_from pass n i (v, tr) = Ok (Continue (v', tr')) ->
    exists rows,
      tr' = tr ++ rows /\ length rows = n /\
      numbered_from i rows /\ Forall not_yet rows.
Proof.
  induction n as [|n IH]; intros i v v' tr tr' Hrun; simpl in Hrun.
  - injection Hrun as <- <-. exists []. rewrite app_nil_r. simpl. auto.
  - pose proof (pass_ok i v tr) as Hp.
    destruct (pass i (v, tr)) as [[[v1 tr1]|r']|ex]; try discriminate.
    destruct Hp as (row0 & -> & Hi & Hev & Hnc).
    destruct (IH _ _ _ _ _ Hrun) as (rows & -> & Hlen & Hnum & Hall).
    exists (row0 :: rows). rewrite <- app_assoc. simpl.
    repeat split; auto.
Qed.

End LoopProperties.

(** ** One pass of each solver *)

Section PassProperties.

Context {num : Type} {N : Number num}.
Variable host : Host num.

Lemma number_inv (v : value num) (n : num) : number v = Ok n -> v = VNum n.
Proof.
  destruct v; simpl; intros H; try discriminate.
  injection H as ->. reflexivity.
Qed.

(** Run a pass symbolically: split on every step that may raise and on
    every branch. *)
Ltac run_pass :=
  repeat match goal with
    | |- context [bind ?m _] =>
        let E := fresh "E" in destruct m eqn:E; cbn [bind]
    | |- context [if ?c then _ else _] =>
        let E := fresh "E" in destruct c eqn:E
    end.

Ltac use_number :=
  repeat match goal with
    | H : number ?v = Ok ?n |- _ => apply number_inv in H; subst v
    end.

Ltac row_facts :=
  eexists; repeat split; simpl; try reflexivity; try eassumption.

Lemma bisection_pass_spec (e : expr num) (tol : num) :
  pass_spec host e tol (bisection_pass host e tol).
Proof.
  intros i [[[a b] fa] fb] tr. unfold bisection_pass.
  run_pass; trivial; use_number; row_facts.
Qed.

Lemma regula_falsi_pass_spec (e : expr num) (tol : num) :
  pass_spec host e tol (regula_falsi_pass host e tol).
Proof.
  intros i [[a b] c_old] tr. unfold regula_falsi_pass.
  run_pass; trivial; use_number; row_facts.
Qed.

Lemma secant_pass_spec (e : expr num) (tol : num) :
  pass_spec host e tol (secant_pass host e tol).
Proof.
  intros i [x0 x1] tr. unfold secant_pass.
  run_pass; trivial; use_number; row_facts.
Qed.

Lemma newton_raphson_pass_spec (e : expr num) (tol : num) :
  pass_spec host e tol (newton_raphson_pass host e tol).
Proof.
  intros i x tr. unfold newton_raphson_pass.
  run_pass; trivial; use_number; row_facts.
Qed.

Lemma fixed_point_pass_spec (e g_expr : expr num) (tol : num) :
  pass_spec host e tol (fixed_point_pass host e g_expr tol).
Proof.
  intros i x tr. unfold fixed_point_pass.
  run_pass; trivial; use_number; row_facts.
Qed.

Lemma modified_secant_pass_spec (e : expr num) (delta tol : num) :
  pass_spec host e tol (modified_secant_pass host e delta tol).
Proof.
  intros i x tr. unfold modified_secant_pass.
  run_pass; trivial; use_number; row_facts.
Qed.

End PassProperties.

(** ** A whole run *)

Section RunProperties.

Context {num : Type} {N : Number num}.
Variable host : Host num.

Lemma Forall_app_one {A : Type} (P : A -> Prop) (l : list A) (x : A) :
  Forall P (l ++ [x]) -> Forall P l /\ P x.
Proof.
  intros H. apply Forall_app in H. destruct H as [Hl Hx].
  split; [exact Hl | now inversion Hx].
Qed.

Lemma numbered_from_last (rows : list (IterationRecord num))
    (row : IterationRecord num) :
  forall z : Z, numbered_from z (rows ++ [row]) ->
    row_iteration row = (z + Z.of_nat (length rows))%Z.
Proof.
  induction rows as [|q rows IH]; simpl; intros z.
  - intros [-> _]. lia.
  - intros [_ Hn]. rewrite (IH _ Hn). lia.
Qed.

(** What the loop of any solver, started on an empty trace, gives back when
    the solver returns. *)
Lemma run_returns {V : Type} (e : expr num) (tol : num)
    (pass : Z -> V * list (IterationRecord num) ->
            Result (flow (V * list (IterationRecord num)) (SolveResult num)))
    (v : V) (max_iter : Z) (r : SolveResult num) :
  pass_spec host e tol pass ->
  after_loop (for_range pass 1 (max_iter + 1) (v, [])) = Ok r ->
  stops_at_first host e tol r /\
  (1 <= total_iterations r <= max_iter)%Z /\
  Z.of_nat (length (iterations r)) = total_iterations r /\
  numbered_from 1 (iterations r).
Proof.
  intros Hpass Hrun. unfold after_loop, for_range in Hrun.
  destruct (for_range_from pass _ 1 (v, [])) as [[s|r']|ex] eqn:Hloop;
    try discriminate.
  injection Hrun as ->.
  destruct (loop_return host e tol pass Hpass _ _ _ _ _ Hloop)
    as (rows & row & Hit & Hlen & Hnum & Hall & Hc & Hev & Htot & Herr).
  simpl in Hit. rewrite Hit.
  assert (Hrow : row_iteration row = total_iterations r).
  { rewrite Htot. apply numbered_from_last, Hnum. }
  repeat split.
  - exists rows, row. rewrite Hit. repeat split; auto.
  - lia.
  - lia.
  - rewrite length_app. simpl. lia.
  - exact Hnum.
Qed.

(** A loop that runs off its end made [max_iter] passes, none meeting the
    stopping rule. *)
Lemma run_exhausted {V : Type} (e : expr num) (tol : num)
    (pass : Z -> V * list (IterationRecord num) ->
            Result (flow (V * list (IterationRecord num)) (SolveResult num)))
    (v v' : V) (max_iter : Z) (tr' : list (IterationRecord num)) :
  pass_spec host e tol pass ->
  for_range pass 1 (max_iter + 1) (v, []) = Ok (Continue (v', tr')) ->
  length tr' = Z.to_nat max_iter /\
  Forall (fun q => row_converged tol q = false) tr'.
Proof.
  intros Hpass Hloop. unfold for_range in Hloop.
  destruct (loop_continue host e tol pass Hpass _ _ _ _ _ _ Hloop)
    as (rows & -> & Hlen & _ & Hall).
  simpl. split; [rewrite Hlen; f_equal; lia | exact Hall].
Qed.

(** Each solver is its loop, after the sign check in the case of bisection. *)
Lemma solve_returns (q : request num) (r : SolveResult num) :
  solve host q = Ok r ->
  stops_at_first host (equation q) (tolerance q) r /\
  (1 <= total_iterations r <= max_iterations q)%Z /\
  Z.of_nat (length (iterations r)) = total_iterations r /\
  numbered_from 1 (iterations r).
Proof.
  destruct q; simpl.
  - unfold bisection_method.
    destruct (safe_eval host e a) as [va|]; [|discriminate].
    destruct (safe_eval host e b) as [vb|]; [|discriminate]. cbn [bind].
    destruct (number va) as [fa|]; [|discriminate].
    destruct (number vb) as [fb|]; [|discriminate]. cbn [bind].
    destruct (ltb zero (mul fa fb)); [discriminate|].
    apply run_returns, bisection_pass_spec.
  - apply run_returns, regula_falsi_pass_spec.
  - apply run_returns, secant_pass_spec.
  - apply run_returns, newton_raphson_pass_spec.
  - apply run_returns, fixed_point_pass_spec.
  - apply run_returns, modified_secant_pass_spec.
Qed.

End RunProperties.

(** ** What a solver can raise *)

Section Raised.

Context {num : Type} {N : Number num}.
Variable host : Host num.

Lemma safe_eval_raises (e : expr num) (x : num) (ex : exn) :
  safe_eval host e x = Raise ex -> exists inner, ex = EvaluationError inner.
Proof.
  unfold safe_eval. destruct (eval _ _ _ e) as [v|inner]; intros H.
  - discriminate.
  - injection H as <-. now exists inner.
Qed.

Lemma number_raises (v : value num) (ex : exn) :
  number v = Raise ex -> exn_cls ex = TypeError.
Proof.
  destruct v; simpl; intros H; try discriminate; now injection H as <-.
Qed.

Lemma truediv_raises (x y : num) (ex : exn) :
  truediv x y = Raise ex -> exn_cls ex = ZeroDivisionError.
Proof.
  unfold truediv. destruct (eqb y zero); intros H; [|discriminate].
  now injection H as <-.
Qed.

Lemma derivative_raises (e : expr num) (x h : num) (ex : exn) :
  derivative host e x h = Raise ex ->
  (exists inner, ex = EvaluationError inner) \/
  exn_cls ex = TypeError \/ exn_cls ex = ZeroDivisionError.
Proof.
  unfold derivative.
  destruct (safe_eval host e (add x h)) as [vp|] eqn:Ep; cbn [bind];
    [|intros H; injection H as <-; left; eapply safe_eval_raises, Ep].
  destruct (safe_eval host e (sub x h)) as [vm|] eqn:Em; cbn [bind];
    [|intros H; injection H as <-; left; eapply safe_eval_raises, Em].
  destruct (number vp) as [fp|] eqn:Np; cbn [bind];
    [|intros H; injection H as <-; right; left; eapply number_raises, Np].
  destruct (number vm) as [fm|] eqn:Nm; cbn [bind];
    [|intros H; injection H as <-; right; left; eapply number_raises, Nm].
  intros H. right; right. eapply truediv_raises, H.
Qed.

(** Split a pass that raised on the step that did. *)
Ltac find_raise H :=
  repeat match type of H with
    | context [bind ?m _] =>
        let E := fresh "E" in destruct m eqn:E; cbn [bind] in H
    | context [if ?c then _ else _] =>
        let E := fresh "E" in destruct c eqn:E
    end;
  try discriminate H;
  injection H as <-.

Ltac classify :=
  match goal with
  | E : safe_eval _ _ _ = Raise _ |- _ =>
      left; eapply safe_eval_raises, E
  | E : number _ = Raise _ |- _ =>
      right; left; eapply number_raises, E
  | E : truediv _ _ = Raise _ |- _ =>
      right; right; left; eapply truediv_raises, E
  | E : derivative _ _ _ _ = Raise _ |- _ =>
      destruct (derivative_raises _ _ _ _ E) as [?|[?|?]];
      [left; assumption | right; left; assumption
      | right; right; left; assumption]
  | |- _ => right; right; right; unfold is_SingularityError; tauto
  end.

Lemma bisection_pass_raises (e : expr num) (tol : num) (i : Z) s (ex : exn) :
  bisection_pass host e tol i s = Raise ex -> raised_in_pass ex.
Proof.
  destruct s as [[[[a b] fa] fb] tr]. unfold bisection_pass, raised_in_pass.
  intros H. find_raise H; classify.
Qed.

(** Regula falsi has no guard of its own. *)
Lemma regula_falsi_pass_raises (e : expr num) (tol : num) (i : Z) s (ex : exn) :
  regula_falsi_pass host e tol i s = Raise ex ->
  (exists inner, ex = EvaluationError inner) \/
  exn_cls ex = TypeError \/ exn_cls ex = ZeroDivisionError.
Proof.
  destruct s as [[[a b] c_old] tr]. unfold regula_falsi_pass.
  intros H. find_raise H;
    match goal with
    | E : safe_eval _ _ _ = Raise _ |- _ => left; eapply safe_eval_raises, E
    | E : number _ = Raise _ |- _ => right; left; eapply number_raises, E
    | E : truediv _ _ = Raise _ |- _ => right; right; eapply truediv_raises, E
    end.
Qed.

Lemma secant_pass_raises (e : expr num) (tol : num) (i : Z) s (ex : exn) :
  secant_pass host e tol i s = Raise ex -> raised_in_pass ex.
Proof.
  destruct s as [[x0 x1] tr]. unfold secant_pass, raised_in_pass.
  intros H. find_raise H; classify.
Qed.

Lemma newton_raphson_pass_raises (e : expr num) (tol : num) (i : Z) s (ex : exn) :
  newton_raphson_pass host e tol i s = Raise ex -> raised_in_pass ex.
Proof.
  destruct s as [x tr]. unfold newton_raphson_pass, raised_in_pass.
  intros H. find_raise H; classify.
Qed.

Lemma fixed_point_pass_raises (e g_expr : expr num) (tol : num) (i : Z) s (ex : exn) :
  fixed_point_pass host e g_expr tol i s = Raise ex -> raised_in_pass ex.
Proof.
  destruct s as [x tr]. unfold fixed_point_pass, raised_in_pass.
  intros H. find_raise H; classify.
Qed.

Lemma modified_secant_pass_raises (e : expr num) (delta tol : num) (i : Z) s (ex : exn) :
  modified_secant_pass host e delta tol i s = Raise ex -> raised_in_pass ex.
Proof.
  destruct s as [x tr]. unfold modified_secant_pass, raised_in_pass.
  intros H. find_raise H; classify.
Qed.

(** A loop raises what one of its passes raised. *)
Lemma loop_raises {St R : Type} (body : Z -> St -> Result (flow St R))
    (P : exn -> Prop) :
  (forall i s ex, body i s = Raise ex -> P ex) ->
  forall (n : nat) (i : Z) (s : St) (ex : exn),
    for_range_from body n i s = Raise ex -> P ex.
Proof.
  intros Hbody. induction n as [|n IH]; intros i s ex H; simpl in H.
  - discriminate.
  - destruct (body i s) as [[s'|r]|ex'] eqn:E.
    + eapply IH, H.
    + discriminate.
    + injection H as <-. eapply Hbody, E.
Qed.

Lemma raised_in_pass_not_convergence (ex : exn) :
  raised_in_pass ex -> ex <> ConvergenceError.
Proof.
  intros [[inner ->]|[H|[H|[->|[->| ->]]]]]; try discriminate;
    intros ->; discriminate.
Qed.

Lemma raised_in_pass_not_precondition (ex : exn) :
  raised_in_pass ex -> ex <> PreconditionError.
Proof.
  intros [[inner ->]|[H|[H|[->|[->| ->]]]]]; try discriminate;
    intros ->; discriminate.
Qed.

End Raised.

(** ** The stopping rule, the iteration bound and the trace *)

Section RunTheorems.

Context {num : Type} {N : Number num}.
Variable host : Host num.

Lemma pass_spec_appends {V : Type} (e : expr num) (tol : num)
    (pass : Z -> V * list (IterationRecord num) ->
            Result (flow (V * list (IterationRecord num)) (SolveResult num))) :
  pass_spec host e tol pass -> appends_one_row pass.
Proof.
  intros H i v tr. specialize (H i v tr).
  destruct (pass i (v, tr)) as [[[v' tr']|r]|ex]; trivial.
  - destruct H as (row & ? & ? & _). now exists row.
  - destruct H as (row & ? & ? & _ & _ & ? & _). now exists row.
Qed.

Lemma numbered_from_seq (rows : list (IterationRecord num)) :
  forall k : nat, numbered_from (Z.of_nat k) rows ->
    map row_iteration rows = map Z.of_nat (seq k (length rows)).
Proof.
  induction rows as [|row rows IH]; simpl; intros k.
  - reflexivity.
  - intros [-> Hn]. f_equal. apply IH.
    now replace (Z.of_nat (S k)) with (Z.of_nat k + 1)%Z by lia.
Qed.

Local Open Scope num_scope.

(** Each pass, once the computations before its convergence check have
    succeeded, is [conclude] on the row of the pass. *)
Lemma bisection_pass_concludes (e : expr num) (tol : num) (i : Z)
    (a b fa fb : num) (tr : list (IterationRecord num)) (c fc err : num) :
  truediv (a + b) two = Ok c ->
  safe_eval host e c = Ok (VNum fc) ->
  truediv (abs (b - a)) two = Ok err ->
  bisection_pass host e tol i (a, b, fa, fb, tr) =
  conclude tol i tr (BracketRow i a b c fc err) c (Ok (VNum fc))
    (if fa * fc <? zero then (a, c, fa, fc) else (c, b, fc, fb)).
Proof.
  intros Hc Hfc Herr. unfold bisection_pass, conclude, row_converged.
  rewrite Hc. cbn [bind]. rewrite Hfc, Herr. simpl.
  destruct (converged tol err fc); [reflexivity|].
  destruct (fa * fc <? zero); reflexivity.
Qed.

Lemma regula_falsi_pass_concludes (e : expr num) (tol : num) (i : Z)
    (a b c_old : num) (tr : list (IterationRecord num)) (fa fb c fc : num) :
  safe_eval host e a = Ok (VNum fa) ->
  safe_eval host e b = Ok (VNum fb) ->
  truediv (a * fb - b * fa) (fb - fa) = Ok c ->
  safe_eval host e c = Ok (VNum fc) ->
  regula_falsi_pass host e tol i (a, b, c_old, tr) =
  conclude tol i tr
    (BracketRow i a b c fc (if (i >? 1)%Z then abs (c - c_old) else abs (b - a)))
    c (Ok (VNum fc))
    (if fa * fc <? zero then (a, c, c) else (c, b, c)).
Proof.
  intros Hfa Hfb Hc Hfc. unfold regula_falsi_pass, conclude, row_converged.
  rewrite Hfa, Hfb. cbn [bind number]. rewrite Hc. cbn [bind]. rewrite Hfc. simpl.
  destruct (converged tol _ fc); [reflexivity|].
  destruct (fa * fc <? zero); reflexivity.
Qed.

Lemma secant_pass_concludes (e : expr num) (tol : num) (i : Z)
    (x0 x1 : num) (tr : list (IterationRecord num)) (f0 f1 q : num) :
  safe_eval host e x0 = Ok (VNum f0) ->
  safe_eval host e x1 = Ok (VNum f1) ->
  (abs (f1 - f0) <? tiny) = false ->
  truediv (f1 * (x1 - x0)) (f1 - f0) = Ok q ->
  secant_pass host e tol i (x0, x1, tr) =
  conclude tol i tr (SecantRow i x0 x1 f1 (abs (x1 - q - x1)))
    (x1 - q) (safe_eval host e (x1 - q)) (x1, x1 - q).
Proof.
  intros Hf0 Hf1 Hguard Hq. unfold secant_pass, conclude, row_converged.
  rewrite Hf0, Hf1. cbn [bind number]. rewrite Hguard, Hq. reflexivity.
Qed.

Lemma newton_raphson_pass_concludes (e : expr num) (tol : num) (i : Z)
    (x : num) (tr : list (IterationRecord num)) (fx fpx q : num) :
  safe_eval host e x = Ok (VNum fx) ->
  derivative host e x h_default = Ok fpx ->
  (abs fpx <? tiny) = false ->
  truediv fx fpx = Ok q ->
  newton_raphson_pass host e tol i (x, tr) =
  conclude tol i tr (NewtonRow i x fx fpx (abs (x - q - x)))
    (x - q) (safe_eval host e (x - q)) (x - q).
Proof.
  intros Hfx Hfpx Hguard Hq. unfold newton_raphson_pass, conclude, row_converged.
  rewrite Hfx, Hfpx. cbn [bind]. rewrite Hguard. cbn [bind number].
  rewrite Hq. reflexivity.
Qed.

Lemma fixed_point_pass_concludes (e g_expr : expr num) (tol : num) (i : Z)
    (x : num) (tr : list (IterationRecord num)) (g_x fx : num) :
  safe_eval host g_expr x = Ok (VNum g_x) ->
  safe_eval host e x = Ok (VNum fx) ->
  fixed_point_pass host e g_expr tol i (x, tr) =
  conclude tol i tr (FixedPointRow i x g_x fx (abs (g_x - x)))
    g_x (safe_eval host e g_x) g_x.
Proof.
  intros Hg Hfx. unfold fixed_point_pass, conclude, row_converged.
  rewrite Hg, Hfx. reflexivity.
Qed.

Lemma modified_secant_pass_concludes (e : expr num) (delta tol : num) (i : Z)
    (x : num) (tr : list (IterationRecord num)) (fx fx_delta q : num) :
  safe_eval host e x = Ok (VNum fx) ->
  safe_eval host e (x + delta * x) = Ok (VNum fx_delta) ->
  (abs (fx_delta - fx) <? tiny) = false ->
  truediv (fx * (delta * x)) (fx_delta - fx) = Ok q ->
  modified_secant_pass host e delta tol i (x, tr) =
  conclude tol i tr (ModifiedSecantRow i x fx fx_delta (abs (x - q - x)))
    (x - q) (safe_eval host e (x - q)) (x - q).
Proof.
  intros Hfx Hfd Hguard Hq. unfold modified_secant_pass, conclude, row_converged.
  rewrite Hfx, Hfd. cbn [bind number]. rewrite Hguard, Hq. reflexivity.
Qed.

(** C2, as the code has it.  In each of the six solvers a pass whose
    computations before the convergence check succeed ends in the common
    step [conclude]: it appends its row and returns exactly when
    [error < tol or abs(f) < tol] holds (the error first), [f] being the
    function value at the row's candidate; the result of the bracketing
    methods reports that value, the result of the other four evaluates the
    function at the new root and the pass raises when that fails.  A run
    that returns does so at the first pass whose row meets the rule: all
    earlier rows fail it. *)
Theorem common_stopping_rule :
  (forall (e : expr num) (tol : num) (i : Z) (tr : list (IterationRecord num)),
      (forall a b fa fb c fc err,
          truediv (a + b) two = Ok c ->
          safe_eval host e c = Ok (VNum fc) ->
          truediv (abs (b - a)) two = Ok err ->
          bisection_pass host e tol i (a, b, fa, fb, tr) =
          conclude tol i tr (BracketRow i a b c fc err) c (Ok (VNum fc))
            (if fa * fc <? zero then (a, c, fa, fc) else (c, b, fc, fb))) /\
      (forall a b c_old fa fb c fc,
          safe_eval host e a = Ok (VNum fa) ->
          safe_eval host e b = Ok (VNum fb) ->
          truediv (a * fb - b * fa) (fb - fa) = Ok c ->
          safe_eval host e c = Ok (VNum fc) ->
          regula_falsi_pass host e tol i (a, b, c_old, tr) =
          conclude tol i tr
            (BracketRow i a b c fc
               (if (i >? 1)%Z then abs (c - c_old) else abs (b - a)))
            c (Ok (VNum fc))
            (if fa * fc <? zero then (a, c, c) else (c, b, c))) /\
      (forall x0 x1 f0 f1 q,
          safe_eval host e x0 = Ok (VNum f0) ->
          safe_eval host e x1 = Ok (VNum f1) ->
          (abs (f1 - f0) <? tiny) = false ->
          truediv (f1 * (x1 - x0)) (f1 - f0) = Ok q ->
          secant_pass host e tol i (x0, x1, tr) =
          conclude tol i tr (SecantRow i x0 x1 f1 (abs (x1 - q - x1)))
            (x1 - q) (safe_eval host e (x1 - q)) (x1, x1 - q)) /\
      (forall x fx fpx q,
          safe_eval host e x = Ok (VNum fx) ->
          derivative host e x h_default = Ok fpx ->
          (abs fpx <? tiny) = false ->
          truediv fx fpx = Ok q ->
          newton_raphson_pass host e tol i (x, tr) =
          conclude tol i tr (NewtonRow i x fx fpx (abs (x - q - x)))
            (x - q) (safe_eval host e (x - q)) (x - q)) /\
      (forall g_expr x g_x fx,
          safe_eval host g_expr x = Ok (VNum g_x) ->
          safe_eval host e x = Ok (VNum fx) ->
          fixed_point_pass host e g_expr tol i (x, tr) =
          conclude tol i tr (FixedPointRow i x g_x fx (abs (g_x - x)))
            g_x (safe_eval host e g_x) g_x) /\
      (forall delta x fx fx_delta q,
          safe_eval host e x = Ok (VNum fx) ->
          safe_eval host e (x + delta * x) = Ok (VNum fx_delta) ->
          (abs (fx_delta - fx) <? tiny) = false ->
          truediv (fx * (delta * x)) (fx_delta - fx) = Ok q ->
          modified_secant_pass host e delta tol i (x, tr) =
          conclude tol i tr (ModifiedSecantRow i x fx fx_delta (abs (x - q - x)))
            (x - q) (safe_eval host e (x - q)) (x - q))) /\
  (forall (q : request num) (r : SolveResult num),
      solve host q = Ok r ->
      stops_at_first host (equation q) (tolerance q) r).
Proof.
  split.
  - intros e tol i tr. split; [|split; [|split; [|split; [|split]]]].
    + intros a b fa fb c fc err. apply bisection_pass_concludes.
    + intros a b c_old fa fb c fc. apply regula_falsi_pass_concludes.
    + intros x0 x1 f0 f1 q. apply secant_pass_concludes.
    + intros x fx fpx q. apply newton_raphson_pass_concludes.
    + intros g_expr x g_x fx. apply fixed_point_pass_concludes.
    + intros delta x fx fx_delta q. apply modified_secant_pass_concludes.
  - intros q r Hrun. now apply solve_returns in Hrun.
Qed.

Local Close Scope num_scope.

Lemma after_loop_convergence {St : Type}
    (body : Z -> St -> Result (flow St (SolveResult num))) (stop : Z) (s : St) :
  (forall i s ex, body i s = Raise ex -> raised_in_pass ex) ->
  after_loop (for_range body 1 stop s) = Raise ConvergenceError ->
  exists s', for_range body 1 stop s = Ok (Continue s').
Proof.
  intros Hbody. unfold after_loop, for_range.
  destruct (for_range_from body _ 1 s) as [[s'|r]|ex] eqn:E; intros H.
  - now exists s'.
  - discriminate.
  - injection H as ->.
    apply (loop_raises body raised_in_pass Hbody) in E.
    now apply raised_in_pass_not_convergence in E.
Qed.

Lemma raised_three (ex : exn) :
  (exists inner, ex = EvaluationError inner) \/
  exn_cls ex = TypeError \/ exn_cls ex = ZeroDivisionError ->
  raised_in_pass ex.
Proof. unfold raised_in_pass. tauto. Qed.

Lemma runs_off_end_iff (q : request num) :
  (exists rows, runs_off_end host q rows) <-> solve host q = Raise ConvergenceError.
Proof.
  split.
  - intros [rows Hoff]. destruct q; simpl in Hoff |- *.
    + destruct Hoff as (fa & fb & v & Ea & Eb & Hsign & Hloop).
      unfold bisection_method. rewrite Ea, Eb. simpl. rewrite Hsign, Hloop.
      reflexivity.
    + destruct Hoff as (v & Hloop). unfold regula_falsi_method. now rewrite Hloop.
    + destruct Hoff as (v & Hloop). unfold secant_method. now rewrite Hloop.
    + destruct Hoff as (v & Hloop). unfold newton_raphson_method. now rewrite Hloop.
    + destruct Hoff as (v & Hloop). unfold fixed_point_method. now rewrite Hloop.
    + destruct Hoff as (v & Hloop). unfold modified_secant_method. now rewrite Hloop.
  - destruct q; simpl.
    + unfold bisection_method.
      destruct (safe_eval host e a) as [va|ex] eqn:Ea; cbn [bind];
        [|intros H; injection H as ->; apply safe_eval_raises in Ea;
          destruct Ea as [inner Ea]; discriminate].
      destruct (safe_eval host e b) as [vb|ex] eqn:Eb; cbn [bind];
        [|intros H; injection H as ->; apply safe_eval_raises in Eb;
          destruct Eb as [inner Eb]; discriminate].
      destruct (number va) as [fa|ex] eqn:Na; cbn [bind];
        [|intros H; injection H as ->; apply number_raises in Na; discriminate].
      destruct (number vb) as [fb|ex] eqn:Nb; cbn [bind];
        [|intros H; injection H as ->; apply number_raises in Nb; discriminate].
      apply number_inv in Na, Nb. subst va vb.
      destruct (ltb zero (mul fa fb)) eqn:Hsign; [discriminate|].
      intros H. apply after_loop_convergence in H.
      * destruct H as [[v rows] Hs]. exists rows, fa, fb, v. auto.
      * apply bisection_pass_raises.
    + intros H. apply after_loop_convergence in H;
        [destruct H as [[v rows] Hs]; now exists rows, v|].
      intros i s ex Hex. eapply raised_three, regula_falsi_pass_raises, Hex.
    + intros H. apply after_loop_convergence in H;
        [destruct H as [[v rows] Hs]; now exists rows, v|].
      apply secant_pass_raises.
    + intros H. apply after_loop_convergence in H;
        [destruct H as [[v rows] Hs]; now exists rows, v|].
      apply newton_raphson_pass_raises.
    + intros H. apply after_loop_convergence in H;
        [destruct H as [[v rows] Hs]; now exists rows, v|].
      apply fixed_point_pass_raises.
    + intros H. apply after_loop_convergence in H;
        [destruct H as [[v rows] Hs]; now exists rows, v|].
      apply modified_secant_pass_raises.
Qed.

(** The trace of a loop that ran off its end: one row per pass, none
    meeting the stopping rule. *)
Lemma runs_off_end_rows (q : request num) (rows : list (IterationRecord num)) :
  runs_off_end host q rows ->
  length rows = Z.to_nat (max_iterations q) /\
  Forall (fun row => row_converged (tolerance q) row = false) rows.
Proof.
  destruct q; simpl.
  - intros (fa & fb & v & _ & _ & _ & Hloop).
    eapply run_exhausted; [apply bisection_pass_spec | exact Hloop].
  - intros (v & Hloop).
    eapply run_exhausted; [apply regula_falsi_pass_spec | exact Hloop].
  - intros (v & Hloop).
    eapply run_exhausted; [apply secant_pass_spec | exact Hloop].
  - intros (v & Hloop).
    eapply run_exhausted; [apply newton_raphson_pass_spec | exact Hloop].
  - intros (v & Hloop).
    eapply run_exhausted; [apply fixed_point_pass_spec | exact Hloop].
  - intros (v & Hloop).
    eapply run_exhausted; [apply modified_secant_pass_spec | exact Hloop].
Qed.

(** C4.  For every request to any of the six solvers, the iteration count of
    a returned result lies between 1 and [max_iterations]; the solver raises
    the convergence error exactly when its loop makes all its passes without
    one returning, which are then [max_iterations] passes whose rows all fail
    the stopping rule; and in that case it returns no result. *)
Theorem iteration_count_bounded :
  forall q : request num,
    (forall r, solve host q = Ok r ->
               (1 <= total_iterations r <= max_iterations q)%Z) /\
    ((exists rows, runs_off_end host q rows) <->
     solve host q = Raise ConvergenceError) /\
    (forall rows, runs_off_end host q rows ->
       length rows = Z.to_nat (max_iterations q) /\
       Forall (fun row => row_converged (tolerance q) row = false) rows /\
       forall r, solve host q <> Ok r).
Proof.
  intros q. split; [|split].
  - intros r Hrun. now apply solve_returns in Hrun.
  - apply runs_off_end_iff.
  - intros rows Hoff.
    destruct (runs_off_end_rows q rows Hoff) as [Hlen Hall].
    repeat split; auto.
    intros r Hr.
    assert (Hc : solve host q = Raise ConvergenceError)
      by (apply runs_off_end_iff; now exists rows).
    congruence.
Qed.

(** C8.  In each of the six solvers a loop pass that reaches its convergence
    check has appended exactly one row, numbered with the pass index, the
    converging pass included; so a returned result has as many rows as its
    iteration count, numbered 1, 2, ... in order. *)
Theorem one_row_per_pass :
  (forall (e g_expr : expr num) (delta tol : num),
      appends_one_row (bisection_pass host e tol) /\
      appends_one_row (regula_falsi_pass host e tol) /\
      appends_one_row (secant_pass host e tol) /\
      appends_one_row (newton_raphson_pass host e tol) /\
      appends_one_row (fixed_point_pass host e g_expr tol) /\
      appends_one_row (modified_secant_pass host e delta tol)) /\
  (forall (q : request num) (r : SolveResult num),
      solve host q = Ok r ->
      Z.of_nat (length (iterations r)) = total_iterations r /\
      map row_iteration (iterations r)
        = map Z.of_nat (seq 1 (length (iterations r)))).
Proof.
  split.
  - intros e g_expr delta tol.
    repeat split; eapply pass_spec_appends;
      eauto using bisection_pass_spec, regula_falsi_pass_spec, secant_pass_spec,
        newton_raphson_pass_spec, fixed_point_pass_spec, modified_secant_pass_spec.
  - intros q r Hrun. apply solve_returns in Hrun.
    destruct Hrun as (_ & _ & Hlen & Hnum). split; [exact Hlen|].
    now apply numbered_from_seq.
Qed.

End RunTheorems.

(** ** The sign check of bisection *)

Section SignCheck.

Context {num : Type} {N : Number num}.
Variable host : Host num.

Local Open Scope num_scope.

(** Bisection raises the precondition error exactly on a positive product
    of the endpoint values. *)
Lemma bisection_precondition_iff (e : expr num) (a b tol : num) (max_iter : Z) :
  bisection_method host e a b tol max_iter = Raise PreconditionError <->
  exists fa fb,
    safe_eval host e a = Ok (VNum fa) /\ safe_eval host e b = Ok (VNum fb) /\
    (fa * fb >? zero) = true.
Proof.
  unfold bisection_method. split.
  - destruct (safe_eval host e a) as [va|ex] eqn:Ea; cbn [bind];
      [|intros H; injection H as ->; apply safe_eval_raises in Ea;
        destruct Ea as [inner Ea]; discriminate].
    destruct (safe_eval host e b) as [vb|ex] eqn:Eb; cbn [bind];
      [|intros H; injection H as ->; apply safe_eval_raises in Eb;
        destruct Eb as [inner Eb]; discriminate].
    destruct (number va) as [fa|ex] eqn:Na; cbn [bind];
      [|intros H; injection H as ->; apply number_raises in Na; discriminate].
    destruct (number vb) as [fb|ex] eqn:Nb; cbn [bind];
      [|intros H; injection H as ->; apply number_raises in Nb; discriminate].
    apply number_inv in Na, Nb. subst va vb.
    destruct (fa * fb >? zero) eqn:Hsign.
    + intros _. now exists fa, fb.
    + unfold after_loop, for_range.
      destruct (for_range_from _ _ 1 _) as [[s|r]|ex] eqn:E; intros H;
        try discriminate.
      injection H as ->.
      apply (loop_raises _ raised_in_pass (bisection_pass_raises host e tol)) in E.
      now apply raised_in_pass_not_precondition in E.
  - intros (fa & fb & Ea & Eb & Hsign). rewrite Ea, Eb. simpl.
    now rewrite Hsign.
Qed.

(** C3, as the code has it.  For every pair of endpoints whose function
    values have a product [f(a)*f(b) > 0], bisection raises the precondition
    error before its first pass, whatever the rest of the request: no row is
    produced. *)
Theorem bisection_sign_check :
  forall (e : expr num) (a b tol : num) (max_iter : Z) (fa fb : num),
    safe_eval host e a = Ok (VNum fa) ->
    safe_eval host e b = Ok (VNum fb) ->
    (fa * fb >? zero) = true ->
    bisection_method host e a b tol max_iter = Raise PreconditionError.
Proof.
  intros e a b tol max_iter fa fb Ea Eb Hsign.
  apply bisection_precondition_iff. now exists fa, fb.
Qed.

End SignCheck.

(** The example of the specification, [f(x) = x*x + 1] on [[-1, 1]]. *)
Lemma bisection_sign_check_witness :
  safe_eval arith_host x_squared_plus_1 (-1)%float = Ok (VNum 2%float) /\
  safe_eval arith_host x_squared_plus_1 1%float = Ok (VNum 2%float) /\
  bisection_method arith_host x_squared_plus_1 (-1)%float 1%float 1e-6%float 100
    = Raise PreconditionError.
Proof.
  split; [reflexivity|]. split; [reflexivity|].
  apply (bisection_sign_check arith_host x_squared_plus_1 (-1)%float 1%float
           1e-6%float 100 2%float 2%float); reflexivity.
Defined.

(** C3 as stated fails on a zero product: for [f(x) = x] on [[0, 1]] the
    values [f(0) = 0] and [f(1) = 1] do not satisfy [f(a)*f(b) < 0], and
    bisection enters its loop and returns after three passes. *)
Lemma bisection_zero_product_runs :
  safe_eval arith_host just_x 0%float = Ok (VNum 0%float) /\
  safe_eval arith_host just_x 1%float = Ok (VNum 1%float) /\
  (0 * 1 <? 0)%float = false /\
  exists r,
    bisection_method arith_host just_x 0%float 1%float 0.25%float 100 = Ok r /\
    root r = 0.875%float /\ total_iterations r = 3%Z /\
    length (iterations r) = 3%nat.
Proof.
  repeat split.
  eexists. repeat split; vm_compute; reflexivity.
Qed.

(** ** Facts on floats *)

Section FloatFacts.

Local Open Scope float_scope.

Lemma sub_self_finite (v : float) :
  isfinite v = true -> Prim2SF (v - v) = S754_zero false.
Proof.
  unfold isfinite. rewrite sub_spec.
  destruct (Prim2SF v) as [s|s| |s m ex]; try discriminate; intros _.
  - destruct s; reflexivity.
  - unfold SF64sub, SFsub. cbv zeta. rewrite Z.sub_diag. reflexivity.
Qed.

Lemma sub_self_not_finite (v : float) :
  isfinite v = false -> Prim2SF (v - v) = S754_nan.
Proof.
  unfold isfinite. rewrite sub_spec.
  destruct (Prim2SF v) as [s|s| |s m ex]; try discriminate; intros _.
  - destruct s; reflexivity.
  - reflexivity.
Qed.

(** On floats [v - v] is a zero for a finite [v], so [abs(v - v) < 1e-14]
    holds and a division by [v - v] raises. *)
Lemma diff_self_tiny (v : float) :
  isfinite v = true -> ltb (abs (sub v v)) tiny = true.
Proof.
  intros H. change ((PrimFloat.abs (v - v) <? 1e-14) = true).
  rewrite ltb_spec, abs_spec, (sub_self_finite v H). reflexivity.
Qed.

Lemma diff_self_zero (v : float) :
  isfinite v = true -> eqb (sub v v) zero = true.
Proof.
  intros H. change ((v - v =? 0) = true).
  rewrite FloatAxioms.eqb_spec, (sub_self_finite v H). reflexivity.
Qed.

(** For an infinite or undefined [v] it is [nan], which passes both the
    guard and the zero test. *)
Lemma diff_self_nan_tiny (v : float) :
  isfinite v = false -> ltb (abs (sub v v)) tiny = false.
Proof.
  intros H. change ((PrimFloat.abs (v - v) <? 1e-14) = false).
  rewrite ltb_spec, abs_spec, (sub_self_not_finite v H). reflexivity.
Qed.

Lemma diff_self_nan_zero (v : float) :
  isfinite v = false -> eqb (sub v v) zero = false.
Proof.
  intros H. change ((v - v =? 0) = false).
  rewrite FloatAxioms.eqb_spec, (sub_self_not_finite v H). reflexivity.
Qed.

(** [0 + delta*0] is [0] for a finite [delta]. *)
Lemma zero_perturbed (delta : float) :
  isfinite delta = true -> add 0 (mul delta 0) = 0.
Proof.
  unfold isfinite. intros H. change (0 + delta * 0 = 0).
  apply Prim2SF_inj. rewrite add_spec, mul_spec.
  destruct (Prim2SF delta) as [s|s| |s m ex]; try discriminate;
    destruct s; reflexivity.
Qed.

End FloatFacts.

(** ** Splitting a loop *)

Lemma for_range_from_app {St R : Type} (body : Z -> St -> Result (flow St R))
    (k n : nat) :
  forall (i : Z) (s s' : St),
    for_range_from body k i s = Ok (Continue s') ->
    for_range_from body (k + n) i s = for_range_from body n (i + Z.of_nat k) s'.
Proof.
  induction k as [|k IH]; intros i s s' H; simpl in H.
  - injection H as ->. simpl. f_equal. lia.
  - simpl. destruct (body i s) as [[s1|r]|ex]; try discriminate.
    rewrite (IH _ _ _ H). f_equal. lia.
Qed.

(** The first pass of a loop with at least one pass. *)
Lemma for_range_first {St R : Type} (body : Z -> St -> Result (flow St R))
    (max_iter : Z) (s : St) :
  (1 <= max_iter)%Z ->
  for_range body 1 (max_iter + 1) s =
  match body 1%Z s with
  | Ok (Continue s') => for_range body 2 (max_iter + 1) s'
  | Ok (Return r) => Ok (Return r)
  | Raise ex => Raise ex
  end.
Proof.
  intros Hm. unfold for_range.
  replace (Z.to_nat (max_iter + 1 - 1)) with (S (Z.to_nat (max_iter + 1 - 2)))
    by lia.
  reflexivity.
Qed.

(** ** The guards of the secant methods and the missing guard of regula falsi *)

Section Guards.

Context {num : Type} {N : Number num}.
Variable host : Host num.

Local Open Scope num_scope.

Lemma EvaluationError_not_singular (inner : exn) :
  ~ is_SingularityError (EvaluationError inner).
Proof. intros [H|[H|H]]; discriminate. Qed.

(** A secant pass raises its singularity error exactly when the guard
    [abs(f1 - f0) < 1e-14] holds. *)
Lemma secant_pass_guard (e : expr num) (tol : num) (i : Z) (x0 x1 : num)
    (tr : list (IterationRecord num)) (f0 f1 : num) :
  safe_eval host e x0 = Ok (VNum f0) ->
  safe_eval host e x1 = Ok (VNum f1) ->
  secant_pass host e tol i (x0, x1, tr) = Raise SingularityError_secant <->
  (abs (f1 - f0) <? tiny) = true.
Proof.
  intros E0 E1. unfold secant_pass. rewrite E0, E1. simpl.
  destruct (abs (f1 - f0) <? tiny); split; intros H; try reflexivity;
    try discriminate.
  exfalso.
  destruct (truediv (f1 * (x1 - x0)) (f1 - f0)) as [q|ex] eqn:Eq; cbn [bind] in H.
  - destruct (converged tol _ f1); [|discriminate].
    destruct (safe_eval host e (x1 - q)) as [v|ex] eqn:E2; cbn [bind] in H;
      [discriminate|].
    injection H as ->. apply safe_eval_raises in E2.
    destruct E2 as [inner E2]. discriminate.
  - injection H as ->. apply truediv_raises in Eq. discriminate.
Qed.

(** The secant method raises it at the first pass it reaches in which the
    guard holds. *)
Lemma secant_first_flat_pass (e : expr num) (tol : num) (x0 x1 : num)
    (max_iter : Z) (k : nat) (y0 y1 : num) (tr : list (IterationRecord num))
    (f0 f1 : num) :
  for_range_from (secant_pass host e tol) k 1 (x0, x1, []) = Ok (Continue (y0, y1, tr)) ->
  (k < Z.to_nat max_iter)%nat ->
  safe_eval host e y0 = Ok (VNum f0) ->
  safe_eval host e y1 = Ok (VNum f1) ->
  (abs (f1 - f0) <? tiny) = true ->
  secant_method host e x0 x1 tol max_iter = Raise SingularityError_secant.
Proof.
  intros Hk Hlt E0 E1 Hflat. unfold secant_method, for_range.
  replace (Z.to_nat (max_iter + 1 - 1)) with (k + S (Z.to_nat max_iter - k - 1))%nat
    by lia.
  rewrite (for_range_from_app _ _ _ _ _ _ Hk). cbn [for_range_from].
  apply (secant_pass_guard e tol (1 + Z.of_nat k) y0 y1 tr f0 f1 E0 E1) in Hflat.
  now rewrite Hflat.
Qed.

(** Regula falsi raises neither the precondition error nor a singularity
    error. *)
Lemma regula_falsi_raises (e : expr num) (a b tol : num) (max_iter : Z) (ex : exn) :
  regula_falsi_method host e a b tol max_iter = Raise ex ->
  ex <> PreconditionError /\ ~ is_SingularityError ex.
Proof.
  unfold regula_falsi_method, after_loop, for_range.
  destruct (for_range_from _ _ 1 _) as [[s|r]|ex'] eqn:E; intros H;
    try discriminate; injection H as <-.
  - split; [discriminate|]. intros [H|[H|H]]; discriminate.
  - apply (loop_raises _ _ (regula_falsi_pass_raises host e tol)) in E.
    destruct E as [[inner ->]|[E|E]].
    + split; [discriminate | apply EvaluationError_not_singular].
    + split; [intros ->; discriminate | intros [->|[->| ->]]; discriminate].
    + split; [intros ->; discriminate | intros [->|[->| ->]]; discriminate].
Qed.

End Guards.

(** ** The solvers on floats *)

Section FloatTheorems.

Variable host : Host float.

Local Open Scope float_scope.

(** C6, as the code has it.  A secant pass whose two function values
    evaluate raises the singularity error exactly when
    [abs(f1 - f0) < 1e-14]; the method raises it at the first pass it reaches
    in which that holds; and for an expression with the same finite value at
    both guesses (a constant expression with a finite value) it raises it in
    the first pass, when there is one. *)
Theorem secant_singularity :
  forall (e : expr float) (tol : float),
    (forall (i : Z) (x0 x1 : float) (tr : list (IterationRecord float))
            (f0 f1 : float),
        safe_eval host e x0 = Ok (VNum f0) ->
        safe_eval host e x1 = Ok (VNum f1) ->
        secant_pass host e tol i (x0, x1, tr) = Raise SingularityError_secant <->
        (PrimFloat.abs (f1 - f0) <? 1e-14) = true) /\
    (forall (x0 x1 : float) (max_iter : Z) (k : nat) (y0 y1 : float)
            (tr : list (IterationRecord float)) (f0 f1 : float),
        for_range_from (secant_pass host e tol) k 1 (x0, x1, [])
          = Ok (Continue (y0, y1, tr)) ->
        (k < Z.to_nat max_iter)%nat ->
        safe_eval host e y0 = Ok (VNum f0) ->
        safe_eval host e y1 = Ok (VNum f1) ->
        (PrimFloat.abs (f1 - f0) <? 1e-14) = true ->
        secant_method host e x0 x1 tol max_iter = Raise SingularityError_secant) /\
    (forall (x0 x1 : float) (max_iter : Z) (v : float),
        (1 <= max_iter)%Z ->
        safe_eval host e x0 = Ok (VNum v) ->
        safe_eval host e x1 = Ok (VNum v) ->
        isfinite v = true ->
        secant_method host e x0 x1 tol max_iter = Raise SingularityError_secant).
Proof.
  intros e tol. split; [|split].
  - intros i x0 x1 tr f0 f1 E0 E1.
    exact (secant_pass_guard host e tol i x0 x1 tr f0 f1 E0 E1).
  - intros x0 x1 max_iter k y0 y1 tr f0 f1.
    exact (secant_first_flat_pass host e tol x0 x1 max_iter k y0 y1 tr f0 f1).
  - intros x0 x1 max_iter v Hm E0 E1 Hv.
    apply (secant_first_flat_pass host e tol x0 x1 max_iter 0 x0 x1 [] v v);
      auto using diff_self_tiny.
    lia.
Qed.

(** C7.  Regula falsi raises neither the precondition error nor a
    singularity error on any input; with at least one pass allowed it runs
    its first pass on the endpoints as given, whatever their signs; and a
    pass in which [f(a)] and [f(b)] are the same finite value divides by
    zero unguarded: Python's [ZeroDivisionError] leaves the solver. *)
Theorem regula_falsi_unguarded :
  forall (e : expr float) (a b tol : float) (max_iter : Z),
    (forall ex : exn,
        regula_falsi_method host e a b tol max_iter = Raise ex ->
        ex <> PreconditionError /\ ~ is_SingularityError ex) /\
    ((1 <= max_iter)%Z ->
     regula_falsi_method host e a b tol max_iter =
     match regula_falsi_pass host e tol 1 (a, b, a, []) with
     | Ok (Continue s) =>
         after_loop (for_range (regula_falsi_pass host e tol) 2 (max_iter + 1) s)
     | Ok (Return r) => Ok r
     | Raise ex => Raise ex
     end) /\
    (forall (i : Z) (a' b' c_old : float) (tr : list (IterationRecord float))
            (v : float),
        safe_eval host e a' = Ok (VNum v) ->
        safe_eval host e b' = Ok (VNum v) ->
        isfinite v = true ->
        regula_falsi_pass host e tol i (a', b', c_old, tr)
          = Raise (Exn ZeroDivisionError "float division by zero")).
Proof.
  intros e a b tol max_iter. split; [|split].
  - intros ex. apply regula_falsi_raises.
  - intros Hm. unfold regula_falsi_method.
    rewrite (for_range_first _ _ _ Hm).
    destruct (regula_falsi_pass host e tol 1 (a, b, a, [])) as [[s|r]|ex];
      reflexivity.
  - intros i a' b' c_old tr v Ea Eb Hv.
    unfold regula_falsi_pass. rewrite Ea, Eb. cbn [bind number].
    unfold truediv. now rewrite (diff_self_zero v Hv).
Qed.

(** C10, as the code has it.  From the starting guess [0.0], with a finite
    [delta], at least one pass allowed and an expression whose value at [0.0]
    is a finite number, the perturbed point [x + delta*x] is [0.0] again and
    the modified secant method raises its singularity error in the first
    pass. *)
Theorem modified_secant_zero_guess :
  forall (e : expr float) (delta tol : float) (max_iter : Z) (v : float),
    (1 <= max_iter)%Z ->
    isfinite delta = true ->
    safe_eval host e 0 = Ok (VNum v) ->
    isfinite v = true ->
    modified_secant_method host e 0 delta tol max_iter
      = Raise SingularityError_modified_secant.
Proof.
  intros e delta tol max_iter v Hm Hdelta E0 Hv.
  unfold modified_secant_method. rewrite (for_range_first _ _ _ Hm).
  unfold modified_secant_pass.
  rewrite (zero_perturbed delta Hdelta).
  rewrite E0. cbn [bind number].
  now rewrite (diff_self_tiny v Hv).
Qed.

End FloatTheorems.

(** [f(x) = x], [x0 = 0.0], [delta = 0.01] *)
Lemma modified_secant_zero_guess_witness :
  (1 <= 100)%Z /\ isfinite 0.01%float = true /\
  safe_eval arith_host just_x 0%float = Ok (VNum 0%float) /\
  isfinite 0%float = true /\
  modified_secant_method arith_host just_x 0%float 0.01%float 1e-6%float 100
    = Raise SingularityError_modified_secant.
Proof.
  split; [lia|]. split; [reflexivity|]. split; [reflexivity|].
  split; [reflexivity|].
  apply (modified_secant_zero_guess arith_host just_x 0.01%float 1e-6%float 100
           0%float); [lia | reflexivity | reflexivity | reflexivity].
Defined.

(** C10 as stated fails for an infinite [delta]: for [f(x) = x] and
    [x0 = 0.0] the perturbation [delta*x] is [nan], the guard
    [abs(fx_delta - fx) < 1e-14] compares [nan] and lets the pass through,
    and since [abs(f(0)) < tol] the method returns a result, with root
    [nan]. *)
Lemma modified_secant_infinite_delta_returns :
  safe_eval arith_host just_x 0%float = Ok (VNum 0%float) /\
  exists r,
    modified_secant_method arith_host just_x 0%float infinity 1e-6%float 100 = Ok r /\
    root r = nan /\ total_iterations r = 1%Z /\
    iterations r = [ModifiedSecantRow 1 0%float 0%float nan nan].
Proof.
  split; [reflexivity|].
  eexists. repeat split; vm_compute; reflexivity.
Qed.

(** A constant with a finite value, [f(x) = 5]. *)
Lemma secant_singularity_witness :
  safe_eval arith_host (Constant 5%float) 0%float = Ok (VNum 5%float) /\
  safe_eval arith_host (Constant 5%float) 1%float = Ok (VNum 5%float) /\
  isfinite 5%float = true /\
  secant_method arith_host (Constant 5%float) 0%float 1%float 1e-6%float 100
    = Raise SingularityError_secant.
Proof.
  split; [reflexivity|]. split; [reflexivity|]. split; [reflexivity|].
  apply (proj2 (proj2 (secant_singularity arith_host (Constant 5%float) 1e-6%float))
           0%float 1%float 100%Z 5%float); [lia | reflexivity | reflexivity | reflexivity].
Defined.

(** C6 as stated fails for a constant that is not finite: for the literal
    [1e999], which Python reads as [inf], both function values are [inf],
    [f1 - f0] is [nan], the guard compares [nan] and lets every pass through,
    and the method ends in the convergence error. *)
Lemma secant_infinite_constant_not_singular :
  safe_eval arith_host (Constant infinity) 0%float = Ok (VNum infinity) /\
  safe_eval arith_host (Constant infinity) 1%float = Ok (VNum infinity) /\
  secant_pass arith_host (Constant infinity) 1e-6%float 1 (0%float, 1%float, [])
    = Ok (Continue (1%float, nan, [SecantRow 1 0%float 1%float infinity nan])) /\
  secant_method arith_host (Constant infinity) 0%float 1%float 1e-6%float 100
    = Raise ConvergenceError /\
  ConvergenceError <> SingularityError_secant.
Proof.
  repeat split; try (vm_compute; reflexivity). discriminate.
Qed.

(** Regula falsi on same-sign endpoints: [x*x + 1] on [[1, 2]] makes its
    three passes, and on [[-1, 1]], where [f(a) = f(b) = 2], it divides by
    zero in the first. *)
Example regula_falsi_same_sign_endpoints :
  regula_falsi_method arith_host x_squared_plus_1 1%float 2%float 1e-6%float 3
    = Raise ConvergenceError /\
  regula_falsi_method arith_host x_squared_plus_1 (-1)%float 1%float 1e-6%float 100
    = Raise (Exn ZeroDivisionError "float division by zero").
Proof. split; vm_compute; reflexivity. Qed.

(** ** The namespace of [safe_eval] *)

Section Namespace.

Context {num : Type} {N : Number num}.
Variable host : Host num.

(** Induction on expressions, with the arguments of a call. *)
Lemma expr_induction (P : expr num -> Prop) :
  (forall v, P (Constant v)) ->
  (forall id, P (Name id)) ->
  (forall op operand, P operand -> P (UnaryOp op operand)) ->
  (forall l op r, P l -> P r -> P (BinOp l op r)) ->
  (forall func args, P func -> Forall P args -> P (Call func args)) ->
  (forall obj attr, P obj -> P (Attribute obj attr)) ->
  forall e, P e.
Proof.
  intros Hc Hn Hu Hb Hcall Ha.
  fix IH 1. intros [v|id|op operand|l op r|func args|obj attr].
  - apply Hc.
  - apply Hn.
  - apply Hu, IH.
  - apply Hb; apply IH.
  - apply Hcall; [apply IH|].
    induction args as [|a args IHargs]; constructor; [apply IH | exact IHargs].
  - apply Ha, IH.
Qed.

Lemma bound_names_are_keys (x_val : num) :
  bound_names = map fst (safe_locals host x_val) ++ map fst (@safe_globals num).
Proof. reflexivity. Qed.

Lemma lookup_unbound (id : string) (d : namespace num) :
  ~ In id (map fst d) -> lookup id d = None.
Proof.
  induction d as [|[k v] d IH]; simpl; intros Hnot.
  - reflexivity.
  - destruct (String.eqb k id) eqn:E.
    + apply String.eqb_eq in E. tauto.
    + apply IH. tauto.
Qed.

Lemma load_name_unbound (x_val : num) (id : string) :
  ~ In id bound_names ->
  exists ex, load_name safe_globals (safe_locals host x_val) id = Raise ex.
Proof.
  rewrite (bound_names_are_keys x_val). intros Hnot.
  unfold load_name.
  rewrite !lookup_unbound; [eauto| |]; intros Hin; apply Hnot, in_or_app; auto.
Qed.

(** Evaluation is strict: it raises as soon as a name of the expression has
    no binding. *)
Lemma eval_unbound (x_val : num) (id : string) :
  ~ In id bound_names ->
  id <> "__debug__" ->
  forall e : expr num, In id (names e) ->
    exists ex, eval host safe_globals (safe_locals host x_val) e = Raise ex.
Proof.
  intros Hnot Hdebug. induction e as [v|id'|op operand IH|l op r IHl IHr|func args IHf IHargs|obj attr IH]
    using expr_induction; simpl; intros Hin.
  - contradiction.
  - destruct Hin as [->|[]].
    replace (String.eqb id "__debug__") with false
      by (symmetry; now apply String.eqb_neq).
    now apply load_name_unbound.
  - destruct (IH Hin) as [ex ->]. simpl. eauto.
  - apply in_app_or in Hin.
    destruct (eval host _ _ l) as [vl|exl] eqn:El; [|simpl; eauto].
    destruct Hin as [Hin|Hin]; [destruct (IHl Hin); discriminate|].
    destruct (IHr Hin) as [ex ->]. simpl. eauto.
  - apply in_app_or in Hin.
    destruct (eval host _ _ func) as [vf|exf] eqn:Ef; [|simpl; eauto].
    destruct Hin as [Hin|Hin]; [destruct (IHf Hin); discriminate|].
    cbn [bind].
    match goal with
    | |- exists ex, bind ?m _ = _ => assert (Hargs : exists ex, m = Raise ex)
    end.
    { clear Ef. induction args as [|a args IHl]; simpl in Hin; [contradiction|].
      inversion IHargs as [|? ? Ha Hrest]; subst.
      apply in_app_or in Hin.
      destruct (eval host _ _ a) as [va|exa] eqn:Ea; [|simpl; eauto].
      destruct Hin as [Hin|Hin]; [destruct (Ha Hin); discriminate|].
      destruct (IHl Hrest Hin) as [ex ->]. simpl. eauto. }
    destruct Hargs as [ex ->]. simpl. eauto.
  - destruct (IH Hin) as [ex ->]. simpl. eauto.
Qed.

(** [__debug__] is no key of the dictionaries and evaluates all the
    same. *)
Lemma debug_evaluates (x_val : num) :
  ~ In "__debug__" bound_names /\
  safe_eval host (Name "__debug__") x_val = Ok (debug_constant host).
Proof.
  split; [|reflexivity].
  simpl. intros H. repeat destruct H as [H|H]; try discriminate H. exact H.
Qed.

(** C5, as the code has it.  [safe_eval] raises its evaluation error
    whenever the expression refers to an identifier other than the keys of
    its two dictionaries ([x], [math], [sin], [cos], [tan], [exp], [log],
    [sqrt], [pi], [e], [abs], [pow] and [__builtins__]) and other than
    [__debug__], which the compiler replaces by a constant. *)
Theorem safe_eval_unbound_name :
  forall (e : expr num) (x_val : num) (id : string),
    In id (names e) ->
    ~ In id (listed_names ++ ["math"; "__builtins__"; "__debug__"]) ->
    exists inner, safe_eval host e x_val = Raise (EvaluationError inner).
Proof.
  intros e x_val id Hin Hnot.
  assert (Hb : ~ In id bound_names).
  { intros Hb. apply Hnot. unfold bound_names in Hb. simpl in Hb. simpl. tauto. }
  assert (Hd : id <> "__debug__").
  { intros ->. apply Hnot. simpl. tauto. }
  destruct (eval_unbound x_val id Hb Hd e Hin) as [ex Hex].
  exists ex. unfold safe_eval. now rewrite Hex.
Qed.

End Namespace.

(** [os + x] *)
Lemma safe_eval_unbound_name_witness :
  In "os" (names (BinOp (Name "os") Add (Name "x") : expr float)) /\
  ~ In "os" (listed_names ++ ["math"; "__builtins__"; "__debug__"]) /\
  exists inner,
    safe_eval arith_host (BinOp (Name "os") Add (Name "x")) 1%float
      = Raise (EvaluationError inner).
Proof.
  assert (Hin : In "os" (names (BinOp (Name "os") Add (Name "x") : expr float)))
    by (simpl; auto).
  assert (Hnot : ~ In "os" (listed_names ++ ["math"; "__builtins__"; "__debug__"])).
  { simpl. intros H. repeat destruct H as [H|H]; try discriminate H. exact H. }
  split; [exact Hin|]. split; [exact Hnot|].
  exact (safe_eval_unbound_name arith_host _ 1%float "os" Hin Hnot).
Defined.

(** [__debug__ + x] at [1.0] is [2.0]: the name is looked up nowhere. *)
Example debug_is_a_constant :
  ~ In "__debug__" bound_names /\
  safe_eval arith_host (BinOp (Name "__debug__") Add (Name "x")) 1%float
    = Ok (VNum 2%float).
Proof.
  split; [exact (proj1 (debug_evaluates arith_host 1%float))|].
  vm_compute. reflexivity.
Qed.

(** C5 as stated fails on [math]: the name is not in the listed set, the
    dictionary of [safe_eval] binds it to the module, and through it
    [math.sqrt(x)] evaluates; [__builtins__] is bound too, to [None]. *)
Lemma math_is_bound :
  In "math" (names (math_sqrt_x : expr float)) /\
  ~ In "math" listed_names /\
  safe_eval arith_host (Name "math") 4%float = Ok VModule /\
  safe_eval arith_host math_sqrt_x 4%float = Ok (VNum 2%float) /\
  safe_eval arith_host (Name "__builtins__") 4%float = Ok VNone.
Proof.
  split; [simpl; auto|]. split.
  - simpl. intros H. repeat destruct H as [H|H]; try discriminate H. exact H.
  - repeat split; vm_compute; reflexivity.
Qed.

(** ** The iteration bound of bisection *)

(** C1 as stated fails when [(b - a)/tol] is a power of two.  For
    [f(x) = 10*x - 9] on [[0, 1]] with [tol = 0.25] the ratio is [4] and
    [ceil(log2 4) = 2]; every value below is exact in binary floating point.
    With [max_iter = 2] bisection raises the convergence error: the second
    pass has error estimate [0.25], not below [tol].  It returns in the third
    pass, where [|f(r)| = 0.25] and the bracket [[0.75, 1]] has width [0.25]:
    only the half-width [0.125] is below [tol].  Exact arithmetic gives the
    same. *)
Lemma bisection_power_of_two_ratio :
  let e := ten_x_minus_9 10%float 9%float in
  safe_eval arith_host e 0%float = Ok (VNum (-9)%float) /\
  safe_eval arith_host e 1%float = Ok (VNum 1%float) /\
  ((-9) * 1 <? 0)%float = true /\
  ((1 - 0) / 0.25)%float = 4%float /\
  Z.log2_up 4 = 2%Z /\
  bisection_method arith_host e 0%float 1%float 0.25%float 2 = Raise ConvergenceError /\
  bisection_method rational_host (ten_x_minus_9 10%Q 9%Q) 0%Q 1%Q (1 # 4)%Q 2
    = Raise ConvergenceError /\
  exists r,
    bisection_method arith_host e 0%float 1%float 0.25%float 100 = Ok r /\
    total_iterations r = 3%Z /\
    iterations r =
      [BracketRow 1 0%float 1%float 0.5%float (-4)%float 0.5%float;
       BracketRow 2 0.5%float 1%float 0.75%float (-1.5)%float 0.25%float;
       BracketRow 3 0.75%float 1%float 0.875%float (-0.25)%float 0.125%float] /\
    (PrimFloat.abs (-0.25) <? 0.25)%float = false /\
    (1 - 0.75 <? 0.25)%float = false.
Proof.
  intros e. repeat split; try (vm_compute; reflexivity).
  eexists. repeat split; vm_compute; reflexivity.
Qed.

(** ** Runs on floats *)

(** The six solvers on [x*x - 2]: each returns a root near [1.41421356]
    whose trace has as many rows as its iteration count. *)
Example six_solvers_run :
  let summary (out : Result (SolveResult float)) :=
    match out with
    | Ok r => Some (root r, total_iterations r, length (iterations r))
    | Raise _ => None
    end in
  summary (bisection_method arith_host x_squared_minus_2 1%float 2%float 1e-6%float 100)
    = Some (1.4142141342163086%float, 20%Z, 20%nat) /\
  summary (regula_falsi_method arith_host x_squared_minus_2 1%float 2%float 1e-6%float 100)
    = Some (1.4142134998513232%float, 9%Z, 9%nat) /\
  summary (secant_method arith_host x_squared_minus_2 1%float 2%float 1e-6%float 100)
    = Some (1.4142135623730954%float, 6%Z, 6%nat) /\
  summary (newton_raphson_method arith_host x_squared_minus_2 1%float 1e-6%float 100)
    = Some (1.4142135623730949%float, 5%Z, 5%nat) /\
  summary (fixed_point_method arith_host x_squared_minus_2 heron_step 1%float 1e-6%float 100)
    = Some (1.4142135623730949%float, 5%Z, 5%nat) /\
  summary (modified_secant_method arith_host x_squared_minus_2 1%float 0.01%float 1e-6%float 100)
    = Some (1.4142135627727399%float, 5%Z, 5%nat).
Proof. repeat split; vm_compute; reflexivity. Qed.

(** Newton-Raphson on [x*x - 2] from [1.0]. *)
Lemma common_stopping_rule_witness :
  exists r,
    solve arith_host (newton_raphson x_squared_minus_2 1%float 1e-6%float 100) = Ok r /\
    total_iterations r = 5%Z /\
    stops_at_first arith_host x_squared_minus_2 1e-6%float r.
Proof.
  eexists. split; [vm_compute; reflexivity|]. split; [reflexivity|].
  apply (proj2 (common_stopping_rule arith_host)
           (newton_raphson x_squared_minus_2 1%float 1e-6%float 100)).
  vm_compute. reflexivity.
Defined.

(** C2 as stated fails where the function cannot be evaluated at the new
    root.  For [f(x) = sqrt(x)], [g(x) = x - 1], [x0 = 0.5] and [tol = 2] the
    first pass of fixed-point iteration has error [|g(x0) - x0| = 1 < tol],
    so the stopping rule holds at iteration 1; building the result evaluates
    [f] at the new root [-0.5], and the call raises instead of returning. *)
Lemma converged_pass_raises_at_root :
  safe_eval arith_host x_minus_1 0.5%float = Ok (VNum (-0.5)%float) /\
  safe_eval arith_host sqrt_x 0.5%float = Ok (VNum (PrimFloat.sqrt 0.5)) /\
  converged 2%float (PrimFloat.abs (-0.5 - 0.5)) (PrimFloat.sqrt 0.5) = true /\
  fixed_point_method arith_host sqrt_x x_minus_1 0.5%float 2%float 100
    = Raise (EvaluationError (Exn ValueError "math domain error")).
Proof. repeat split; vm_compute; reflexivity. Qed.

(** Rounding can stall the halving of bisection.  Between [1.0] and the
    next float the midpoint rounds to [1.0]: the pass leaves the bracket as
    it was, with error estimate [2**-53] above [tol = 1e-17], and the method
    ends in the convergence error although [(b - a)/tol] is about 22. *)
Example bisection_stalls_between_neighbours :
  let b := 0x1.0000000000001p+0%float in
  safe_eval arith_host x_minus_1_minus_half_ulp 1%float = Ok (VNum (-0x1p-53)%float) /\
  safe_eval arith_host x_minus_1_minus_half_ulp b = Ok (VNum 0x1p-53%float) /\
  bisection_pass arith_host x_minus_1_minus_half_ulp 1e-17%float 1
      (1%float, b, (-0x1p-53)%float, 0x1p-53%float, [])
    = Ok (Continue (1%float, b, (-0x1p-53)%float, 0x1p-53%float,
                    [BracketRow 1 1%float b 1%float (-0x1p-53)%float 0x1p-53%float])) /\
  bisection_method arith_host x_minus_1_minus_half_ulp 1%float b 1e-17%float 100
    = Raise ConvergenceError.
Proof. repeat split; vm_compute; reflexivity. Qed.

(** * Further properties of the solvers *)

(** ** More on the loop *)

Section LoopShape.

Context {St R : Type}.
Variable body : Z -> St -> Result (flow St R).

(** A loop that returns ran some passes that went on and then one that
    returned. *)
Lemma loop_return_split (n : nat) :
  forall (i : Z) (s : St) (r : R),
    for_range_from body n i s = Ok (Return r) ->
    exists (k : nat) (s' : St),
      (k < n)%nat /\
      for_range_from body k i s = Ok (Continue s') /\
      body (i + Z.of_nat k)%Z s' = Ok (Return r).
Proof.
  induction n as [|n IH]; intros i s r H; simpl in H.
  - discriminate.
  - destruct (body i s) as [[s1|r1]|ex] eqn:E; try discriminate.
    + destruct (IH _ _ _ H) as (k & s' & Hk & Hrun & Hret).
      exists (S k), s'. split; [lia|]. split.
      * simpl. now rewrite E.
      * now replace (i + Z.of_nat (S k))%Z with (i + 1 + Z.of_nat k)%Z by lia.
    + injection H as ->. exists 0%nat, s. split; [lia|]. split; [reflexivity|].
      now replace (i + Z.of_nat 0)%Z with i by lia.
Qed.

(** A loop that raises ran some passes that went on and then one that
    raised. *)
Lemma loop_raise_split (n : nat) :
  forall (i : Z) (s : St) (ex : exn),
    for_range_from body n i s = Raise ex ->
    exists (k : nat) (s' : St),
      (k < n)%nat /\
      for_range_from body k i s = Ok (Continue s') /\
      body (i + Z.of_nat k)%Z s' = Raise ex.
Proof.
  induction n as [|n IH]; intros i s ex H; simpl in H.
  - discriminate.
  - destruct (body i s) as [[s1|r1]|ex1] eqn:E; try discriminate.
    + destruct (IH _ _ _ H) as (k & s' & Hk & Hrun & Hret).
      exists (S k), s'. split; [lia|]. split.
      * simpl. now rewrite E.
      * now replace (i + Z.of_nat (S k))%Z with (i + 1 + Z.of_nat k)%Z by lia.
    + injection H as ->. exists 0%nat, s. split; [lia|]. split; [reflexivity|].
      now replace (i + Z.of_nat 0)%Z with i by lia.
Qed.

(** Fewer passes of a loop that went on go on too. *)
Lemma loop_continue_prefix (n : nat) :
  forall (i : Z) (s s' : St),
    for_range_from body n i s = Ok (Continue s') ->
    forall j : nat, (j <= n)%nat ->
      exists s'', for_range_from body j i s = Ok (Continue s'').
Proof.
  induction n as [|n IH]; intros i s s' H j Hj.
  - replace j with 0%nat by lia. simpl. eauto.
  - destruct j as [|j]; [simpl; eauto|].
    simpl in H |- *. destruct (body i s) as [[s1|r1]|ex]; try discriminate.
    apply (IH _ _ _ H). lia.
Qed.

(** What every pass that goes on keeps holds when the loop runs off its
    end. *)
Lemma loop_invariant (Inv : Z -> St -> Prop) :
  (forall j t t', Inv j t -> body j t = Ok (Continue t') -> Inv (j + 1)%Z t') ->
  forall (n : nat) (i : Z) (s s' : St),
    Inv i s ->
    for_range_from body n i s = Ok (Continue s') ->
    Inv (i + Z.of_nat n)%Z s'.
Proof.
  intros Hstep. induction n as [|n IH]; intros i s s' Hi H; simpl in H.
  - injection H as <-. now replace (i + Z.of_nat 0)%Z with i by lia.
  - destruct (body i s) as [[s1|r1]|ex] eqn:E; try discriminate.
    replace (i + Z.of_nat (S n))%Z with (i + 1 + Z.of_nat n)%Z by lia.
    eapply IH; [|exact H]. eapply Hstep; eauto.
Qed.

End LoopShape.

(** Run a pass that is known to have returned or gone on. *)
Ltac split_pass H :=
  repeat match type of H with
    | context [bind ?m _] =>
        let E := fresh "E" in destruct m eqn:E; cbn [bind] in H
    | context [if ?c then _ else _] =>
        let E := fresh "E" in destruct c eqn:E
    end;
  try discriminate H.

Ltac numbers :=
  repeat match goal with
    | H : number ?v = Ok ?n |- _ => apply number_inv in H; subst v
    end.

Section ResultShape.

Context {num : Type} {N : Number num}.
Variable host : Host num.

(** ** The reported function value *)

Lemma bisection_pass_reports (e : expr num) (tol : num) (i : Z) s r :
  bisection_pass host e tol i s = Ok (Return r) -> reports_root host e r.
Proof.
  destruct s as [[[[a b] fa] fb] tr]. unfold bisection_pass, reports_root.
  intros H. split_pass H; numbers; injection H as <-; simpl; congruence.
Qed.

Lemma regula_falsi_pass_reports (e : expr num) (tol : num) (i : Z) s r :
  regula_falsi_pass host e tol i s = Ok (Return r) -> reports_root host e r.
Proof.
  destruct s as [[[a b] c_old] tr]. unfold regula_falsi_pass, reports_root.
  intros H. split_pass H; numbers; injection H as <-; simpl; congruence.
Qed.

Lemma secant_pass_reports (e : expr num) (tol : num) (i : Z) s r :
  secant_pass host e tol i s = Ok (Return r) -> reports_root host e r.
Proof.
  destruct s as [[x0 x1] tr]. unfold secant_pass, reports_root.
  intros H. split_pass H; numbers; injection H as <-; simpl; congruence.
Qed.

Lemma newton_raphson_pass_reports (e : expr num) (tol : num) (i : Z) s r :
  newton_raphson_pass host e tol i s = Ok (Return r) -> reports_root host e r.
Proof.
  destruct s as [x tr]. unfold newton_raphson_pass, reports_root.
  intros H. split_pass H; numbers; injection H as <-; simpl; congruence.
Qed.

Lemma fixed_point_pass_reports (e g_expr : expr num) (tol : num) (i : Z) s r :
  fixed_point_pass host e g_expr tol i s = Ok (Return r) -> reports_root host e r.
Proof.
  destruct s as [x tr]. unfold fixed_point_pass, reports_root.
  intros H. split_pass H; numbers; injection H as <-; simpl; congruence.
Qed.

Lemma modified_secant_pass_reports (e : expr num) (delta tol : num) (i : Z) s r :
  modified_secant_pass host e delta tol i s = Ok (Return r) -> reports_root host e r.
Proof.
  destruct s as [x tr]. unfold modified_secant_pass, reports_root.
  intros H. split_pass H; numbers; injection H as <-; simpl; congruence.
Qed.

Lemma after_loop_returned {St : Type}
    (body : Z -> St -> Result (flow St (SolveResult num)))
    (start stop : Z) (s : St) (r : SolveResult num) :
  after_loop (for_range body start stop s) = Ok r ->
  exists j s', body j s' = Ok (Return r).
Proof.
  unfold after_loop, for_range.
  destruct (for_range_from body _ start s) as [[s'|r']|ex] eqn:E; intros H;
    try discriminate.
  injection H as ->.
  destruct (loop_return_split body _ _ _ _ E) as (k & s' & _ & _ & Hret).
  eauto.
Qed.

(** X1.  The function value a result reports is the value of the equation
    at the root it reports, for each of the six solvers. *)
Theorem result_reports_value_at_root :
  forall (q : request num) (r : SolveResult num),
    solve host q = Ok r ->
    safe_eval host (equation q) (root r) = Ok (fx r).
Proof.
  intros q r. destruct q; simpl.
  - unfold bisection_method. intros H. split_pass H.
    apply after_loop_returned in H. destruct H as (j & s' & H).
    eapply bisection_pass_reports, H.
  - intros H. apply after_loop_returned in H. destruct H as (j & s' & H).
    eapply regula_falsi_pass_reports, H.
  - intros H. apply after_loop_returned in H. destruct H as (j & s' & H).
    eapply secant_pass_reports, H.
  - intros H. apply after_loop_returned in H. destruct H as (j & s' & H).
    eapply newton_raphson_pass_reports, H.
  - intros H. apply after_loop_returned in H. destruct H as (j & s' & H).
    eapply fixed_point_pass_reports, H.
  - intros H. apply after_loop_returned in H. destruct H as (j & s' & H).
    eapply modified_secant_pass_reports, H.
Qed.

End ResultShape.

(** ** What a result of bisection says *)

Section BisectionResult.

Context {num : Type} {N : Number num}.
Variable host : Host num.

Local Open Scope num_scope.

Lemma truediv_quotient (x y q : num) : truediv x y = Ok q -> q = x / y.
Proof.
  unfold truediv. destruct (y =? zero); intros H; [discriminate H|].
  now injection H as <-.
Qed.

(** The pass of bisection that returns. *)
Lemma bisection_pass_returns (e : expr num) (tol : num) (i : Z) s r :
  bisection_pass host e tol i s = Ok (Return r) ->
  total_iterations r = i /\
  exists rows a' b' fc,
    iterations r = rows ++ [BracketRow i a' b' (root r) fc (final_error r)] /\
    root r = (a' + b') / two /\
    final_error r = abs (b' - a') / two /\
    safe_eval host e (root r) = Ok (VNum fc) /\
    fx r = VNum fc /\
    ((final_error r <? tol) = true \/ (abs fc <? tol) = true).
Proof.
  destruct s as [[[[a' b'] fa] fb] tr]. unfold bisection_pass. intros H.
  split_pass H; numbers; injection H as <-; cbn.
  split; [reflexivity|]. exists tr, a', b'.
  match goal with
  | Hc : converged tol _ ?fc = true |- _ =>
      exists fc; unfold converged in Hc; apply orb_true_iff in Hc
  end.
  repeat match goal with
         | Hd : truediv _ _ = Ok _ |- _ => apply truediv_quotient in Hd
         end.
  auto 10.
Qed.

(** C1, as the code has it.  Bisection promises no number of passes in
    terms of [(b - a)/tol].  What a returned result says: the endpoints
    passed the sign check [f(a)*f(b) > 0] (false), between one and
    [max_iter] passes were made, the root is the midpoint of the last
    bracket, and there [abs(f(root)) < tol] or half the width of that
    bracket is below [tol], all as the program's arithmetic computes
    them. *)
Theorem bisection_returns_within_tolerance :
  forall (e : expr num) (a b tol : num) (max_iter : Z) (r : SolveResult num),
    bisection_method host e a b tol max_iter = Ok r ->
    (exists fa fb,
        safe_eval host e a = Ok (VNum fa) /\
        safe_eval host e b = Ok (VNum fb) /\
        (fa * fb >? zero) = false) /\
    (1 <= total_iterations r <= max_iter)%Z /\
    exists rows a' b' fc,
      iterations r
        = rows ++ [BracketRow (total_iterations r) a' b' (root r) fc (final_error r)] /\
      root r = (a' + b') / two /\
      final_error r = abs (b' - a') / two /\
      safe_eval host e (root r) = Ok (VNum fc) /\
      fx r = VNum fc /\
      ((final_error r <? tol) = true \/ (abs fc <? tol) = true).
Proof.
  intros e a b tol max_iter r H.
  pose proof (solve_returns host (bisection e a b tol max_iter) r H)
    as (_ & Hbound & _).
  unfold bisection_method in H.
  destruct (safe_eval host e a) as [va|] eqn:Ea; [|discriminate H].
  destruct (safe_eval host e b) as [vb|] eqn:Eb; [|discriminate H].
  cbn [bind] in H.
  destruct (number va) as [fa|] eqn:Na; [|discriminate H].
  destruct (number vb) as [fb|] eqn:Nb; [|discriminate H].
  cbn [bind] in H. numbers.
  destruct (fa * fb >? zero) eqn:Hsign; [discriminate H|].
  split; [exists fa, fb; auto|]. split; [exact Hbound|].
  apply after_loop_returned in H. destruct H as (j & s' & Hret).
  apply bisection_pass_returns in Hret. destruct Hret as [<- Hret]. exact Hret.
Qed.

End BisectionResult.

(** Bisection of [10*x - 9] on [[0, 1]] with tolerance [0.25]: the third
    pass returns [0.875], where half the width of [[0.75, 1]] is [0.125]. *)
Lemma bisection_returns_within_tolerance_witness :
  let e := ten_x_minus_9 10%float 9%float in
  exists r,
    bisection_method arith_host e 0%float 1%float 0.25%float 100 = Ok r /\
    total_iterations r = 3%Z /\
    root r = 0.875%float /\
    final_error r = 0.125%float /\
    safe_eval arith_host e (root r) = Ok (VNum (-0.25)%float) /\
    ((final_error r <? 0.25)%float = true \/
     (PrimFloat.abs (-0.25) <? 0.25)%float = true).
Proof.
  intros e.
  assert (Hrun : exists r,
             bisection_method arith_host e 0%float 1%float 0.25%float 100 = Ok r /\
             total_iterations r = 3%Z /\
             root r = 0.875%float /\
             final_error r = 0.125%float /\
             safe_eval arith_host e (root r) = Ok (VNum (-0.25)%float))
    by (eexists; repeat split; vm_compute; reflexivity).
  destruct Hrun as (r & Hr & Hn & Hroot & Herr & Hf). exists r.
  split; [exact Hr|]. split; [exact Hn|]. split; [exact Hroot|].
  split; [exact Herr|]. split; [exact Hf|].
  destruct (bisection_returns_within_tolerance arith_host e 0%float 1%float
              0.25%float 100 r Hr)
    as (_ & _ & rows & a' & b' & fc & _ & _ & _ & Hfc & _ & Hstop).
  rewrite Hf in Hfc. injection Hfc as <-. exact Hstop.
Defined.

(** ** The iteration budget *)

Section Budget.

Context {num : Type} {N : Number num}.
Variable host : Host num.


(** A loop that returned in pass [n] returns the same with any bound from
    [n] on, and runs off its end with a smaller one. *)
Lemma run_budget {V : Type} (e : expr num) (tol : num)
    (pass : Z -> V * list (IterationRecord num) ->
            Result (flow (V * list (IterationRecord num)) (SolveResult num)))
    (s : V * list (IterationRecord num)) (max_iter m : Z) (r : SolveResult num) :
  pass_spec host e tol pass ->
  after_loop (for_range pass 1 (max_iter + 1) s) = Ok r ->
  ((total_iterations r <= m)%Z ->
   after_loop (for_range pass 1 (m + 1) s) = Ok r) /\
  ((m < total_iterations r)%Z ->
   after_loop (for_range pass 1 (m + 1) s) = Raise ConvergenceError).
Proof.
  intros Hpass. unfold after_loop at 1. unfold for_range at 1.
  destruct (for_range_from pass _ 1 s) as [[s'|r']|ex] eqn:E; intros H;
    try discriminate.
  injection H as ->.
  destruct (loop_return_split pass _ _ _ _ E) as (k & [v tr] & Hk & Hrun & Hret).
  assert (Htot : total_iterations r = (1 + Z.of_nat k)%Z).
  { pose proof (Hpass (1 + Z.of_nat k)%Z v tr) as Hp. rewrite Hret in Hp.
    destruct Hp as (row & _ & _ & _ & _ & Ht & _). exact Ht. }
  split; intros Hm; unfold for_range.
  - replace (Z.to_nat (m + 1 - 1)) with (k + S (Z.to_nat m - k - 1))%nat by lia.
    rewrite (for_range_from_app _ _ _ _ _ _ Hrun). cbn [for_range_from]. now rewrite Hret.
  - destruct (loop_continue_prefix pass _ _ _ _ Hrun (Z.to_nat (m + 1 - 1)))
      as [s'' Hs'']; [lia|].
    now rewrite Hs''.
Qed.

(** X2.  The iteration bound decides only whether a solver gets to its
    converging pass: a request that returns a result returns the same
    result under every bound that is at least the result's iteration count,
    and raises the convergence error under every smaller bound. *)
Theorem result_independent_of_budget :
  forall (q : request num) (r : SolveResult num) (m : Z),
    solve host q = Ok r ->
    ((total_iterations r <= m)%Z ->
     solve host (with_max_iterations q m) = Ok r) /\
    ((m < total_iterations r)%Z ->
     solve host (with_max_iterations q m) = Raise ConvergenceError).
Proof.
  intros q r m. destruct q; simpl.
  - unfold bisection_method.
    destruct (safe_eval host e a) as [va|]; [|discriminate].
    destruct (safe_eval host e b) as [vb|]; [|discriminate]. cbn [bind].
    destruct (number va) as [fa|]; [|discriminate].
    destruct (number vb) as [fb|]; [|discriminate]. cbn [bind].
    destruct (ltb zero (mul fa fb)); [discriminate|].
    eapply run_budget, bisection_pass_spec.
  - eapply run_budget, regula_falsi_pass_spec.
  - eapply run_budget, secant_pass_spec.
  - eapply run_budget, newton_raphson_pass_spec.
  - eapply run_budget, fixed_point_pass_spec.
  - eapply run_budget, modified_secant_pass_spec.
Qed.

End Budget.

(** ** The guards of Newton-Raphson and of the modified secant method *)

Section MoreGuards.

Context {num : Type} {N : Number num}.
Variable host : Host num.

Local Open Scope num_scope.

(** X3.  A Newton-Raphson pass whose function value and derivative
    evaluate raises "Derivative too close to zero" exactly when
    [abs(fpx) < 1e-14]; with at least one pass allowed, the method raises it
    in the first pass when that holds at [x0]. *)
Theorem newton_raphson_guard :
  forall (e : expr num) (tol : num) (x : num) (fx fpx : num),
    safe_eval host e x = Ok (VNum fx) ->
    derivative host e x h_default = Ok fpx ->
    (forall (i : Z) (tr : list (IterationRecord num)),
        newton_raphson_pass host e tol i (x, tr) = Raise SingularityError_newton <->
        (abs fpx <? tiny) = true) /\
    (forall max_iter : Z,
        (1 <= max_iter)%Z -> (abs fpx <? tiny) = true ->
        newton_raphson_method host e x tol max_iter = Raise SingularityError_newton).
Proof.
  intros e tol x fx fpx Hfx Hfpx.
  assert (Hpass : forall i tr,
             newton_raphson_pass host e tol i (x, tr) = Raise SingularityError_newton <->
             (abs fpx <? tiny) = true).
  { intros i tr. unfold newton_raphson_pass. rewrite Hfx, Hfpx. cbn [bind number].
    destruct (abs fpx <? tiny); split; intros H; try reflexivity; try discriminate.
    exfalso.
    destruct (truediv fx fpx) as [q|ex] eqn:Eq; cbn [bind] in H.
    - destruct (converged tol _ fx); [|discriminate].
      destruct (safe_eval host e (x - q)) as [v|ex] eqn:E2; cbn [bind] in H;
        [discriminate|].
      injection H as ->. apply safe_eval_raises in E2.
      destruct E2 as [inner E2]. discriminate.
    - injection H as ->. apply truediv_raises in Eq. discriminate. }
  split; [exact Hpass|].
  intros max_iter Hm Hguard. unfold newton_raphson_method.
  rewrite (for_range_first _ _ _ Hm).
  apply (Hpass 1%Z []) in Hguard. now rewrite Hguard.
Qed.

(** X4.  A pass of the modified secant method whose two function values
    evaluate raises "Division by zero in modified secant method" exactly
    when [abs(fx_delta - fx) < 1e-14]; with at least one pass allowed, the
    method raises it in the first pass when that holds at [x0]. *)
Theorem modified_secant_guard :
  forall (e : expr num) (delta tol : num) (x : num) (fx fx_delta : num),
    safe_eval host e x = Ok (VNum fx) ->
    safe_eval host e (x + delta * x) = Ok (VNum fx_delta) ->
    (forall (i : Z) (tr : list (IterationRecord num)),
        modified_secant_pass host e delta tol i (x, tr)
          = Raise SingularityError_modified_secant <->
        (abs (fx_delta - fx) <? tiny) = true) /\
    (forall max_iter : Z,
        (1 <= max_iter)%Z -> (abs (fx_delta - fx) <? tiny) = true ->
        modified_secant_method host e x delta tol max_iter
          = Raise SingularityError_modified_secant).
Proof.
  intros e delta tol x fx fx_delta Hfx Hfd.
  assert (Hpass : forall i tr,
             modified_secant_pass host e delta tol i (x, tr)
               = Raise SingularityError_modified_secant <->
             (abs (fx_delta - fx) <? tiny) = true).
  { intros i tr. unfold modified_secant_pass. rewrite Hfx, Hfd. cbn [bind number].
    destruct (abs (fx_delta - fx) <? tiny); split; intros H; try reflexivity;
      try discriminate.
    exfalso.
    destruct (truediv (fx * (delta * x)) (fx_delta - fx)) as [q|ex] eqn:Eq;
      cbn [bind] in H.
    - destruct (converged tol _ fx); [|discriminate].
      destruct (safe_eval host e (x - q)) as [v|ex] eqn:E2; cbn [bind] in H;
        [discriminate|].
      injection H as ->. apply safe_eval_raises in E2.
      destruct E2 as [inner E2]. discriminate.
    - injection H as ->. apply truediv_raises in Eq. discriminate. }
  split; [exact Hpass|].
  intros max_iter Hm Hguard. unfold modified_secant_method.
  rewrite (for_range_first _ _ _ Hm).
  apply (Hpass 1%Z []) in Hguard. now rewrite Hguard.
Qed.

End MoreGuards.

(** ** Where an exception of a solver comes from, on floats *)

Section FloatOrigins.

Variable host : Host float.

Local Open Scope float_scope.

(** A difference that passes a guard [abs(d) < 1e-14] is not zero. *)
Lemma guard_nonzero (d : float) :
  ltb (abs d) tiny = false -> eqb d zero = false.
Proof.
  change ((PrimFloat.abs d <? 1e-14) = false -> (d =? 0) = false).
  rewrite ltb_spec, abs_spec, FloatAxioms.eqb_spec.
  destruct (Prim2SF d) as [s|s| |s m ex]; intros H.
  - destruct s; vm_compute in H; discriminate H.
  - destruct s; reflexivity.
  - reflexivity.
  - destruct s; reflexivity.
Qed.


Lemma truediv_raises_zero (x y : float) (ex : exn) :
  truediv x y = Raise ex -> eqb y zero = true /\ ex = zero_division.
Proof.
  unfold truediv. destruct (eqb y zero); intros H; [|discriminate].
  injection H as <-. auto.
Qed.

Lemma truediv_two (x : float) : truediv x two = Ok (x / 2).
Proof. reflexivity. Qed.

Lemma number_raises_type_error {num : Type} (v : value num) (ex : exn) :
  number v = Raise ex -> ex = type_error.
Proof. destruct v; simpl; intros H; try discriminate; now injection H as <-. Qed.

(** With the default step the derivative divides by [2e-7]: on a
    float-valued expression it raises only what an evaluation raises. *)
Lemma derivative_raises_float (e : expr float) (x : float) (ex : exn) :
  float_valued host e ->
  derivative host e x h_default = Raise ex ->
  exists inner, ex = EvaluationError inner.
Proof.
  unfold derivative. intros Hfv H.
  destruct (safe_eval host e (add x h_default)) as [vp|] eqn:Ep; cbn [bind] in H;
    [|injection H as <-; exact (safe_eval_raises _ _ _ _ Ep)].
  destruct (safe_eval host e (sub x h_default)) as [vm|] eqn:Em; cbn [bind] in H;
    [|injection H as <-; exact (safe_eval_raises _ _ _ _ Em)].
  destruct (Hfv _ _ Ep) as [fp ->]. destruct (Hfv _ _ Em) as [fm ->].
  discriminate H.
Qed.

Ltac origin :=
  match goal with
  | E : safe_eval _ _ _ = Raise _ |- _ =>
      left; exact (safe_eval_raises _ _ _ _ E)
  | E : number ?v = Raise _, E' : safe_eval _ ?e _ = Ok ?v,
    Hfv : float_valued _ ?e |- _ =>
      destruct (Hfv _ _ E') as [? ->]; discriminate E
  | E : derivative _ ?e _ _ = Raise _, Hfv : float_valued _ ?e |- _ =>
      left; exact (derivative_raises_float _ _ _ Hfv E)
  | E : truediv _ two = Raise _ |- _ => rewrite truediv_two in E; discriminate E
  | E : truediv _ ?d = Raise _, G : ltb (abs ?d) tiny = false |- _ =>
      apply truediv_raises_zero in E; destruct E as [E _];
      rewrite (guard_nonzero d G) in E; discriminate E
  | E : truediv _ _ = Raise _ |- _ =>
      apply truediv_raises_zero in E; destruct E as [_ ->]; tauto
  | |- _ => tauto
  end.

Ltac raised_where H :=
  repeat match type of H with
    | context [bind ?m _] =>
        let E := fresh "E" in destruct m eqn:E; cbn [bind] in H
    | context [if ?c then _ else _] =>
        let E := fresh "E" in destruct c eqn:E
    end;
  try discriminate H;
  injection H as <-.

Lemma loop_origin {St : Type}
    (body : Z -> St -> Result (flow St (SolveResult float)))
    (q : request float) (start stop : Z) (s : St) (ex : exn) :
  (forall i s ex, body i s = Raise ex -> may_raise q ex) ->
  after_loop (for_range body start stop s) = Raise ex -> may_raise q ex.
Proof.
  intros Hbody. unfold after_loop, for_range.
  destruct (for_range_from body _ start s) as [[s'|r]|ex'] eqn:E; intros H;
    try discriminate; injection H as <-.
  - unfold may_raise. tauto.
  - eapply (loop_raises body (may_raise q) Hbody), E.
Qed.

(** X5.  On floats, when whatever the expressions of a request evaluate to
    is a float, an exception that leaves the solver is the evaluation error,
    the convergence error, or the one exception of its method: the
    precondition error only from bisection, each singularity error only
    from its own method, and a [ZeroDivisionError] only from regula falsi.
    The guards of the secant, Newton-Raphson and modified secant methods keep
    every division of theirs from a zero divisor, and fixed-point iteration
    raises nothing of its own. *)
Theorem exception_origin :
  forall (q : request float) (ex : exn),
    Forall (float_valued host) (expressions q) ->
    solve host q = Raise ex -> may_raise q ex.
Proof.
  intros q ex Hfv.
  assert (Hfe : float_valued host (equation q))
    by (destruct q; inversion Hfv; assumption).
  destruct q; simpl in Hfe |- *.
  - unfold bisection_method. intros H.
    destruct (safe_eval host e a) as [va|] eqn:Ea; cbn [bind] in H;
      [|injection H as <-; left; exact (safe_eval_raises _ _ _ _ Ea)].
    destruct (safe_eval host e b) as [vb|] eqn:Eb; cbn [bind] in H;
      [|injection H as <-; left; exact (safe_eval_raises _ _ _ _ Eb)].
    destruct (Hfe _ _ Ea) as [fa ->]. destruct (Hfe _ _ Eb) as [fb ->].
    cbn [bind number] in H.
    destruct (ltb zero (mul fa fb));
      [injection H as <-; unfold may_raise; tauto|].
    eapply loop_origin; [|exact H].
    intros i [[[[a' b'] fa'] fb'] tr] ex' Hp. unfold bisection_pass in Hp.
    unfold may_raise. raised_where Hp; origin.
  - apply loop_origin.
    intros i [[[a' b'] c_old] tr] ex' Hp. unfold regula_falsi_pass in Hp.
    unfold may_raise. raised_where Hp; origin.
  - apply loop_origin.
    intros i [[y0 y1] tr] ex' Hp. unfold secant_pass in Hp.
    unfold may_raise. raised_where Hp; origin.
  - apply loop_origin.
    intros i [x tr] ex' Hp. unfold newton_raphson_pass in Hp.
    unfold may_raise. raised_where Hp; origin.
  - assert (Hfg : float_valued host g_expr).
    { inversion Hfv as [|? ? _ Hrest]. inversion Hrest. assumption. }
    apply loop_origin.
    intros i [x tr] ex' Hp. unfold fixed_point_pass in Hp.
    unfold may_raise. raised_where Hp; origin.
  - apply loop_origin.
    intros i [x tr] ex' Hp. unfold modified_secant_pass in Hp.
    unfold may_raise. raised_where Hp; origin.
Qed.

(** The central difference of a function with the same finite value on
    both sides is a zero. *)
Lemma flat_derivative (e : expr float) (x v : float) :
  safe_eval host e (add x h_default) = Ok (VNum v) ->
  safe_eval host e (sub x h_default) = Ok (VNum v) ->
  isfinite v = true ->
  exists d, derivative host e x h_default = Ok d /\ ltb (abs d) tiny = true.
Proof.
  intros Ep Em Hv. unfold derivative. rewrite Ep, Em. cbn [bind number].
  exists ((v - v) / (2 * 1e-7)). split; [reflexivity|].
  change ((PrimFloat.abs ((v - v) / (2 * 1e-7)) <? 1e-14) = true).
  rewrite ltb_spec, abs_spec, div_spec, (sub_self_finite v Hv). reflexivity.
Qed.

(** X6.  On floats, when the expression has the same finite value at
    [x0 + 1e-7] and [x0 - 1e-7] (a constant expression, for one) and
    evaluates at [x0], Newton-Raphson with at least one pass allowed raises
    "Derivative too close to zero" in its first pass. *)
Theorem newton_raphson_flat :
  forall (e : expr float) (x0 tol : float) (max_iter : Z) (fx v : float),
    (1 <= max_iter)%Z ->
    safe_eval host e x0 = Ok (VNum fx) ->
    safe_eval host e (x0 + 1e-7) = Ok (VNum v) ->
    safe_eval host e (x0 - 1e-7) = Ok (VNum v) ->
    isfinite v = true ->
    newton_raphson_method host e x0 tol max_iter = Raise SingularityError_newton.
Proof.
  intros e x0 tol max_iter fx v Hm Hfx Ep Em Hv.
  destruct (flat_derivative e x0 v Ep Em Hv) as (d & Hd & Hguard).
  unfold newton_raphson_method. rewrite (for_range_first _ _ _ Hm).
  unfold newton_raphson_pass. rewrite Hfx, Hd. cbn [bind].
  now rewrite Hguard.
Qed.

End FloatOrigins.

(** ** The shape of a trace *)

Section TraceShape.

Context {num : Type} {N : Number num}.
Variable host : Host num.

Local Open Scope num_scope.


Ltac returned H :=
  split_pass H; numbers; injection H as <-;
  do 2 eexists; simpl; (split; [reflexivity|]); auto.

Lemma bisection_pass_closes (e : expr num) (tol : num) (i : Z) s r :
  bisection_pass host e tol i s = Ok (Return r) -> closes_trace r.
Proof.
  destruct s as [[[[a b] fa] fb] tr]. unfold bisection_pass, closes_trace.
  intros H. returned H.
Qed.

Lemma regula_falsi_pass_closes (e : expr num) (tol : num) (i : Z) s r :
  regula_falsi_pass host e tol i s = Ok (Return r) -> closes_trace r.
Proof.
  destruct s as [[[a b] c_old] tr]. unfold regula_falsi_pass, closes_trace.
  intros H. returned H.
Qed.

Lemma secant_pass_closes (e : expr num) (tol : num) (i : Z) s r :
  secant_pass host e tol i s = Ok (Return r) -> closes_trace r.
Proof.
  destruct s as [[x0 x1] tr]. unfold secant_pass, closes_trace.
  intros H. returned H.
Qed.

Lemma newton_raphson_pass_closes (e : expr num) (tol : num) (i : Z) s r :
  newton_raphson_pass host e tol i s = Ok (Return r) -> closes_trace r.
Proof.
  destruct s as [x tr]. unfold newton_raphson_pass, closes_trace.
  intros H. returned H.
Qed.

Lemma fixed_point_pass_closes (e g_expr : expr num) (tol : num) (i : Z) s r :
  fixed_point_pass host e g_expr tol i s = Ok (Return r) -> closes_trace r.
Proof.
  destruct s as [x tr]. unfold fixed_point_pass, closes_trace.
  intros H. returned H.
Qed.

Lemma modified_secant_pass_closes (e : expr num) (delta tol : num) (i : Z) s r :
  modified_secant_pass host e delta tol i s = Ok (Return r) -> closes_trace r.
Proof.
  destruct s as [x tr]. unfold modified_secant_pass, closes_trace.
  intros H. returned H.
Qed.

(** X9.  A result agrees with the last row of its trace: the final error is
    the row's error; bisection and regula falsi return the row's point [c];
    the secant, Newton-Raphson and modified secant methods return the next
    iterate, whose distance from the row's iterate is the error; and
    fixed-point iteration returns the row's [g(x)]. *)
Theorem result_closes_trace :
  forall (q : request num) (r : SolveResult num),
    solve host q = Ok r -> closes_trace r.
Proof.
  intros q r. destruct q; simpl.
  - unfold bisection_method. intros H. split_pass H.
    apply after_loop_returned in H. destruct H as (j & s' & H).
    eapply bisection_pass_closes, H.
  - intros H. apply after_loop_returned in H. destruct H as (j & s' & H).
    eapply regula_falsi_pass_closes, H.
  - intros H. apply after_loop_returned in H. destruct H as (j & s' & H).
    eapply secant_pass_closes, H.
  - intros H. apply after_loop_returned in H. destruct H as (j & s' & H).
    eapply newton_raphson_pass_closes, H.
  - intros H. apply after_loop_returned in H. destruct H as (j & s' & H).
    eapply fixed_point_pass_closes, H.
  - intros H. apply after_loop_returned in H. destruct H as (j & s' & H).
    eapply modified_secant_pass_closes, H.
Qed.

(** *** Fixed-point iteration follows the orbit of [g] *)


Lemma orbit_step (g_expr : expr num) (x0 : num) (rows : list (IterationRecord num)) :
  forall (x gx fx : num) (i : Z),
    orbit host g_expr x0 rows x ->
    safe_eval host g_expr x = Ok (VNum gx) ->
    orbit host g_expr x0 (rows ++ [FixedPointRow i x gx fx (abs (gx - x))]) gx.
Proof.
  revert x0. induction rows as [|row rows IH]; intros x0 x gx fx i Ho Hg.
  - simpl in Ho. subst x. simpl. auto.
  - destruct row; simpl in Ho |- *; try contradiction.
    destruct Ho as (-> & Hgx & -> & Ho). repeat split; auto.
Qed.

(** X10.  The trace of fixed-point iteration is the orbit of [g] from
    [x0]: each row starts where the one before it ended, holds [g] of its
    start with the distance between the two as error, and the returned root
    is [g] applied once per row. *)
Theorem fixed_point_follows_orbit :
  forall (e g_expr : expr num) (x0 tol : num) (max_iter : Z) (r : SolveResult num),
    fixed_point_method host e g_expr x0 tol max_iter = Ok r ->
    orbit host g_expr x0 (iterations r) (root r).
Proof.
  intros e g_expr x0 tol max_iter r. unfold fixed_point_method, after_loop, for_range.
  destruct (for_range_from _ _ 1 _) as [[s'|r']|ex] eqn:Hloop; try discriminate.
  intros H. injection H as ->.
  destruct (loop_return_split _ _ _ _ _ Hloop) as (k & [x tr] & _ & Hrun & Hret).
  assert (Hinv : orbit host g_expr x0 tr x).
  { apply (loop_invariant (fixed_point_pass host e g_expr tol)
             (fun _ s => orbit host g_expr x0 (snd s) (fst s)))
      with (n := k) (i := 1%Z) (s := (x0, [])) (s' := (x, tr));
      [|reflexivity|exact Hrun].
    intros j [y t] [y' t'] Ho Hp. simpl in Ho |- *.
    unfold fixed_point_pass in Hp.
    split_pass Hp; numbers; injection Hp as <- <-; now apply orbit_step. }
  unfold fixed_point_pass in Hret.
  split_pass Hret; numbers; injection Hret as <-; simpl; now apply orbit_step.
Qed.

(** *** The error estimates of regula falsi *)



Lemma chained_errors_app (rows : list (IterationRecord num)) :
  forall (previous : option num) (i : Z) (a b c fc err : num),
    chained_errors previous rows ->
    err = match (match rows with [] => previous | _ => last_point rows end) with
          | None => abs (b - a)
          | Some c_old => abs (c - c_old)
          end ->
    chained_errors previous (rows ++ [BracketRow i a b c fc err]).
Proof.
  induction rows as [|row rows IH]; intros previous i a b c fc err Hc He.
  - simpl. auto.
  - destruct row; simpl in Hc; try contradiction.
    destruct Hc as [He' Hc]. cbn [app chained_errors]. split; [exact He'|].
    apply IH; [exact Hc|].
    destruct rows as [|row' rows']; exact He.
Qed.

Lemma last_point_app (rows : list (IterationRecord num)) (i : Z)
    (a b c fc err : num) :
  last_point (rows ++ [BracketRow i a b c fc err]) = Some c.
Proof.
  induction rows as [|row rows IH]; [reflexivity|].
  cbn [app]. destruct rows as [|row' rows'].
  - destruct row; reflexivity.
  - cbn [app] in IH |- *. destruct row; exact IH.
Qed.


Lemma regula_falsi_error (i : Z) (a b c c_old : num)
    (tr : list (IterationRecord num)) :
  (i = 1%Z /\ tr = []) \/ ((1 < i)%Z /\ last_point tr = Some c_old) ->
  (if (i >? 1)%Z then abs (c - c_old) else abs (b - a)) =
  match (match tr with [] => None | _ => last_point tr end) with
  | None => abs (b - a)
  | Some c_old => abs (c - c_old)
  end.
Proof.
  intros [[-> ->]|[Hi Hl]].
  - reflexivity.
  - replace (i >? 1)%Z with true by (symmetry; apply Z.gtb_lt; lia).
    destruct tr; [discriminate|]. now rewrite Hl.
Qed.

Ltac error_case Hcase :=
  erewrite <- (regula_falsi_error _ _ _ _ _ _ Hcase);
  match goal with
  | E : (_ >? 1)%Z = _ |- _ => rewrite E; reflexivity
  end.

(** X11.  In the trace of regula falsi the error of the first row is the
    width [abs(b - a)] of the starting bracket and the error of every later
    row is the distance [abs(c - c_old)] between its point and the point of
    the row before it. *)
Theorem regula_falsi_errors_chain :
  forall (e : expr num) (a b tol : num) (max_iter : Z) (r : SolveResult num),
    regula_falsi_method host e a b tol max_iter = Ok r ->
    chained_errors None (iterations r).
Proof.
  intros e a b tol max_iter r. unfold regula_falsi_method, after_loop, for_range.
  destruct (for_range_from _ _ 1 _) as [[s'|r']|ex] eqn:Hloop; try discriminate.
  intros H. injection H as ->.
  destruct (loop_return_split _ _ _ _ _ Hloop) as (k & [[[a' b'] c_old] tr] & _ & Hrun & Hret).
  assert (Hinv : regula_falsi_state (1 + Z.of_nat k) (a', b', c_old, tr)).
  { apply (loop_invariant (regula_falsi_pass host e tol) regula_falsi_state)
      with (s := (a, b, a, [])); [| |exact Hrun].
    - intros j [[[y z] w] t] t' (Hj & Hc & Hcase) Hp.
      unfold regula_falsi_pass in Hp.
      split_pass Hp; numbers; injection Hp as <-; unfold regula_falsi_state;
        (split; [lia|]);
        (split; [apply chained_errors_app; [exact Hc|];
                 error_case Hcase|]);
        right; (split; [lia | apply last_point_app]).
    - unfold regula_falsi_state. simpl. auto with zarith. }
  destruct Hinv as (Hi & Hc & Hcase).
  unfold regula_falsi_pass in Hret.
  split_pass Hret; numbers; injection Hret as <-; simpl;
    (apply chained_errors_app; [exact Hc|]); error_case Hcase.
Qed.

(** *** The brackets of bisection and of regula falsi *)

Lemma bisection_state_continue (e : expr num) (a b fa tol : num) (i : Z) s s' :
  bisection_state host e a b fa s ->
  bisection_pass host e tol i s = Ok (Continue s') ->
  bisection_state host e a b fa s'.
Proof.
  destruct s as [[[[a' b'] fa'] fb'] tr]. unfold bisection_state, bisection_pass.
  intros Hinv H.
  split_pass H; numbers; injection H as <-; intros rest Hrest;
    rewrite <- app_assoc; apply Hinv; cbn [app bisection_trace];
    repeat match goal with
           | Hd : truediv _ _ = Ok _ |- _ => apply truediv_quotient in Hd
           end;
    repeat (split; [solve [auto]|]);
    match goal with
    | Hb : (_ <? zero) = _ |- _ => rewrite Hb
    end;
    exact Hrest.
Qed.

Lemma bisection_state_return (e : expr num) (a b fa tol : num) (i : Z) s r :
  bisection_state host e a b fa s ->
  bisection_pass host e tol i s = Ok (Return r) ->
  bisection_trace host e a b fa (iterations r).
Proof.
  destruct s as [[[[a' b'] fa'] fb'] tr]. unfold bisection_state, bisection_pass.
  intros Hinv H.
  split_pass H; numbers; injection H as <-; cbn [iterations];
    apply Hinv; cbn [bisection_trace];
    repeat match goal with
           | Hd : truediv _ _ = Ok _ |- _ => apply truediv_quotient in Hd
           end;
    repeat (split; [solve [auto]|]);
    match goal with
    | |- if ?c then _ else _ => destruct c; exact I
    end.
Qed.

(** X7.  The trace of bisection follows the sign test: the first row holds
    the bracket [[a, b]], every row holds the midpoint [(a + b)/2] of its
    bracket, the function value there and the error [abs(b - a)/2], and the
    next row's bracket is the left half when the product of the value kept
    for the left endpoint and the value at the midpoint is negative, the
    right half otherwise, all as the program's arithmetic computes them. *)
Theorem bisection_follows_sign_test :
  forall (e : expr num) (a b tol : num) (max_iter : Z) (r : SolveResult num),
    bisection_method host e a b tol max_iter = Ok r ->
    exists fa,
      safe_eval host e a = Ok (VNum fa) /\
      bisection_trace host e a b fa (iterations r).
Proof.
  intros e a b tol max_iter r H. unfold bisection_method in H.
  destruct (safe_eval host e a) as [va|] eqn:Ea; [|discriminate H].
  destruct (safe_eval host e b) as [vb|] eqn:Eb; [|discriminate H].
  cbn [bind] in H.
  destruct (number va) as [fa|] eqn:Na; [|discriminate H].
  destruct (number vb) as [fb|] eqn:Nb; [|discriminate H].
  cbn [bind] in H. numbers.
  destruct (fa * fb >? zero); [discriminate H|].
  exists fa. split; [reflexivity|].
  unfold after_loop, for_range in H.
  destruct (for_range_from _ _ 1 _) as [[s'|r']|ex] eqn:Hloop; try discriminate H.
  injection H as ->.
  destruct (loop_return_split _ _ _ _ _ Hloop) as (k & s' & _ & Hrun & Hret).
  eapply bisection_state_return; [|exact Hret].
  eapply (loop_invariant _ (fun _ => bisection_state host e a b fa)); [| |exact Hrun].
  - intros j t t'. apply bisection_state_continue.
  - unfold bisection_state. intros rest Hrest. exact Hrest.
Qed.

Lemma false_position_state_continue (e : expr num) (a b tol : num) (i : Z) s s' :
  false_position_state host e a b s ->
  regula_falsi_pass host e tol i s = Ok (Continue s') ->
  false_position_state host e a b s'.
Proof.
  destruct s as [[[a' b'] c_old] tr].
  unfold false_position_state, regula_falsi_pass.
  intros Hinv H.
  split_pass H; numbers; injection H as <-; intros rest Hrest;
    rewrite <- app_assoc; apply Hinv; cbn [app false_position_trace];
    (split; [reflexivity|]); (split; [reflexivity|]);
    do 2 eexists;
    repeat (split; [eassumption|]);
    match goal with
    | Hb : (_ <? zero) = _ |- _ => rewrite Hb
    end;
    exact Hrest.
Qed.

Lemma false_position_state_return (e : expr num) (a b tol : num) (i : Z) s r :
  false_position_state host e a b s ->
  regula_falsi_pass host e tol i s = Ok (Return r) ->
  false_position_trace host e a b (iterations r).
Proof.
  destruct s as [[[a' b'] c_old] tr].
  unfold false_position_state, regula_falsi_pass.
  intros Hinv H.
  split_pass H; numbers; injection H as <-; cbn [iterations];
    apply Hinv; cbn [false_position_trace];
    (split; [reflexivity|]); (split; [reflexivity|]);
    do 2 eexists;
    repeat (split; [eassumption|]);
    match goal with
    | |- if ?c then _ else _ => destruct c; exact I
    end.
Qed.

(** X20.  The trace of regula falsi follows the sign test: the first row
    holds the bracket [[a, b]], every row holds the point
    [(a*fb - b*fa)/(fb - fa)] for the function values at the endpoints of
    its bracket and the function value at that point, and the next row's
    bracket is [[a, c]] when [fa*fc < 0] and [[c, b]] otherwise, all as the
    program's arithmetic computes them. *)
Theorem regula_falsi_follows_sign_test :
  forall (e : expr num) (a b tol : num) (max_iter : Z) (r : SolveResult num),
    regula_falsi_method host e a b tol max_iter = Ok r ->
    false_position_trace host e a b (iterations r).
Proof.
  intros e a b tol max_iter r H. unfold regula_falsi_method in H.
  unfold after_loop, for_range in H.
  destruct (for_range_from _ _ 1 _) as [[s'|r']|ex] eqn:Hloop; try discriminate H.
  injection H as ->.
  destruct (loop_return_split _ _ _ _ _ Hloop) as (k & s' & _ & Hrun & Hret).
  eapply false_position_state_return; [|exact Hret].
  eapply (loop_invariant _ (fun _ => false_position_state host e a b)); [| |exact Hrun].
  - intros j t t'. apply false_position_state_continue.
  - unfold false_position_state. intros rest Hrest. exact Hrest.
Qed.

End TraceShape.

(** ** The tolerance, on floats *)

Section Tolerance.

Variable host : Host float.

Local Open Scope float_scope.


Lemma below_positive (x t : spec_float) :
  not_negative x -> SFltb x t = true -> SFltb (S754_zero false) t = true.
Proof.
  destruct x as [s|s| |s m ex]; simpl; intros Hx; subst;
    destruct t as [s'|s'| |s' m' ex']; try destruct s'; try destruct s;
    intros H; try reflexivity; try discriminate H.
Qed.

Lemma abs_not_negative (x : spec_float) : not_negative (SFabs x).
Proof. destruct x; simpl; auto. Qed.

Lemma round_not_negative (mx ex : Z) (lx : location) :
  not_negative (binary_round_aux prec emax false mx ex lx).
Proof.
  unfold binary_round_aux.
  destruct (shr_fexp prec emax mx ex lx) as [mrs' e'].
  destruct (shr_fexp prec emax _ e' loc_Exact) as [mrs'' e''].
  destruct (shr_m mrs''); simpl; auto.
  destruct (e'' <=? 971)%Z; simpl; auto.
Qed.

Lemma half_not_negative (x : spec_float) :
  not_negative x -> not_negative (SF64div x (Prim2SF 2)).
Proof.
  change (Prim2SF 2) with (S754_finite false 4503599627370496 (-51)).
  destruct x as [s|s| |s m ex]; simpl; intros Hx; subst; auto.
  unfold SF64div, SFdiv.
  destruct (SFdiv_core_binary _ _ _ _ _ _) as [[mz ez] lz].
  apply round_not_negative.
Qed.

(** [abs(d) < tol] and [abs(d)/2 < tol] hold only for a positive [tol]. *)
Lemma abs_below (d t : float) : ltb (abs d) t = true -> ltb zero t = true.
Proof.
  change ((PrimFloat.abs d <? t) = true -> (0 <? t) = true).
  rewrite !ltb_spec, abs_spec. apply below_positive, abs_not_negative.
Qed.

Lemma half_abs_below (d t : float) :
  ltb (div (abs d) two) t = true -> ltb zero t = true.
Proof.
  change ((PrimFloat.abs d / 2 <? t) = true -> (0 <? t) = true).
  rewrite !ltb_spec, div_spec, abs_spec.
  apply below_positive, half_not_negative, abs_not_negative.
Qed.

Lemma converged_positive (tol err f : float) :
  (exists d, err = abs d \/ err = div (abs d) two) ->
  converged tol err f = true -> ltb zero tol = true.
Proof.
  intros [d Hd]. unfold converged. intros H. apply orb_true_iff in H.
  destruct H as [H|H].
  - destruct Hd as [-> | ->]; [eapply abs_below | eapply half_abs_below]; exact H.
  - eapply abs_below, H.
Qed.

(** X12.  On floats a solver returns only under a positive tolerance: with
    a tolerance that is zero, negative or [nan] no request ever returns a
    result. *)
Theorem returns_only_with_positive_tolerance :
  forall (q : request float) (r : SolveResult float),
    solve host q = Ok r -> (0 <? tolerance q) = true.
Proof.
  intros q r Hrun.
  assert (Hpass : exists err f,
             converged (tolerance q) err f = true /\
             exists d, err = abs d \/ err = div (abs d) two).
  { destruct q; simpl in Hrun |- *.
    - unfold bisection_method in Hrun. split_pass Hrun.
      apply after_loop_returned in Hrun. destruct Hrun as (j & s' & H).
      destruct s' as [[[[a' b'] fa'] fb'] tr]. unfold bisection_pass in H.
      rewrite !truediv_two in H. cbn [bind] in H.
      split_pass H; numbers; eauto 8.
    - apply after_loop_returned in Hrun. destruct Hrun as (j & s' & H).
      destruct s' as [[[a' b'] c_old] tr]. unfold regula_falsi_pass in H.
      split_pass H; numbers; eauto 8.
    - apply after_loop_returned in Hrun. destruct Hrun as (j & s' & H).
      destruct s' as [[y0 y1] tr]. unfold secant_pass in H.
      split_pass H; numbers; eauto 8.
    - apply after_loop_returned in Hrun. destruct Hrun as (j & s' & H).
      destruct s' as [x tr]. unfold newton_raphson_pass in H.
      split_pass H; numbers; eauto 8.
    - apply after_loop_returned in Hrun. destruct Hrun as (j & s' & H).
      destruct s' as [x tr]. unfold fixed_point_pass in H.
      split_pass H; numbers; eauto 8.
    - apply after_loop_returned in Hrun. destruct Hrun as (j & s' & H).
      destruct s' as [x tr]. unfold modified_secant_pass in H.
      split_pass H; numbers; eauto 8. }
  destruct Hpass as (err & f & Hc & Hd).
  exact (converged_positive _ _ _ Hd Hc).
Qed.

End Tolerance.

(** ** Edge cases of the iteration *)

Section ZeroBudget.

Context {num : Type} {N : Number num}.
Variable host : Host num.

Local Open Scope num_scope.

(** X13.  With an iteration bound of zero or less the loop makes no pass:
    regula falsi, secant, Newton-Raphson, fixed-point and modified secant
    raise the convergence error without evaluating the expression at all,
    and bisection raises it once both endpoints have evaluated and passed
    the sign check. *)
Theorem no_budget_no_pass :
  forall max_iter : Z,
    (max_iter <= 0)%Z ->
    (forall e a b tol,
        regula_falsi_method host e a b tol max_iter = Raise ConvergenceError) /\
    (forall e x0 x1 tol,
        secant_method host e x0 x1 tol max_iter = Raise ConvergenceError) /\
    (forall e x0 tol,
        newton_raphson_method host e x0 tol max_iter = Raise ConvergenceError) /\
    (forall e g_expr x0 tol,
        fixed_point_method host e g_expr x0 tol max_iter = Raise ConvergenceError) /\
    (forall e x0 delta tol,
        modified_secant_method host e x0 delta tol max_iter
          = Raise ConvergenceError) /\
    (forall e a b tol fa fb,
        safe_eval host e a = Ok (VNum fa) ->
        safe_eval host e b = Ok (VNum fb) ->
        (fa * fb >? zero) = false ->
        bisection_method host e a b tol max_iter = Raise ConvergenceError).
Proof.
  intros max_iter Hm.
  assert (Hnone : Z.to_nat (max_iter + 1 - 1) = 0%nat) by lia.
  repeat split; intros;
    unfold regula_falsi_method, secant_method, newton_raphson_method,
      fixed_point_method, modified_secant_method, bisection_method, for_range;
    rewrite Hnone; try reflexivity.
  rewrite H, H0. cbn [bind number]. rewrite H1. reflexivity.
Qed.

End ZeroBudget.

Section FixedPointAtOnce.

Variable host : Host float.

Local Open Scope float_scope.

Lemma diff_self_is_zero (x : float) :
  isfinite x = true -> abs (sub x x) = 0.
Proof.
  intros H. change (PrimFloat.abs (x - x) = 0). apply Prim2SF_inj.
  rewrite abs_spec, (sub_self_finite x H). reflexivity.
Qed.

(** X14.  On floats, started at a finite fixed point of [g] with a positive
    tolerance and at least one pass allowed, fixed-point iteration returns
    that point in its first pass with error [0], whatever the value of the
    equation there. *)
Theorem fixed_point_returns_fixed_point :
  forall (e g_expr : expr float) (x0 tol : float) (max_iter : Z) (f0 : float),
    (1 <= max_iter)%Z ->
    (0 <? tol) = true ->
    isfinite x0 = true ->
    safe_eval host g_expr x0 = Ok (VNum x0) ->
    safe_eval host e x0 = Ok (VNum f0) ->
    fixed_point_method host e g_expr x0 tol max_iter =
    Ok {| root := x0;
          iterations := [FixedPointRow 1 x0 x0 f0 0];
          total_iterations := 1;
          final_error := 0;
          fx := VNum f0 |}.
Proof.
  intros e g_expr x0 tol max_iter f0 Hm Htol Hx Hg Hf.
  unfold fixed_point_method. rewrite (for_range_first _ _ _ Hm).
  unfold fixed_point_pass. rewrite Hg, Hf. cbn [bind number].
  rewrite (diff_self_is_zero x0 Hx). unfold converged.
  change (@ltb float _ 0 tol) with (0 <? tol). rewrite Htol. cbn [orb].
  rewrite Hf. reflexivity.
Qed.

End FixedPointAtOnce.

(** ** [math.f] and [f] *)



Section Qualified.

Context {num : Type} {N : Number num}.
Variable host : Host num.

Lemma eval_unqualified (x_val : num) :
  forall e : expr num,
    eval host safe_globals (safe_locals host x_val) (unqualified e)
    = eval host safe_globals (safe_locals host x_val) e.
Proof.
  induction e as [v|id|op operand IH|l op r IHl IHr|func args IHf IHargs|obj attr IH]
    using expr_induction.
  - reflexivity.
  - reflexivity.
  - simpl. now rewrite IH.
  - simpl. now rewrite IHl, IHr.
  - simpl. rewrite IHf. destruct (eval host _ _ func) as [f|ex]; [|reflexivity].
    cbn [bind]. f_equal.
    induction args as [|a args IHl]; [reflexivity|].
    inversion IHargs as [|? ? Ha Hrest]; subst. simpl. rewrite Ha.
    destruct (eval host _ _ a) as [va|exa]; [|reflexivity].
    cbn [bind]. now rewrite (IHl Hrest).
  - destruct obj as [v|id|op operand|l op r|func args|obj' attr'];
      try (simpl in IH |- *; first [reflexivity | now rewrite IH]).
    simpl. destruct (String.eqb id "math") eqn:E; [|reflexivity].
    apply String.eqb_eq in E. subst id. destruct attr; reflexivity.
Qed.

(** X15.  A member of [math] and the bare name of the namespace are the
    same object: writing [f] for every [math.f] in an expression changes
    nothing in what [safe_eval] returns or raises. *)
Theorem safe_eval_unqualified :
  forall (e : expr num) (x_val : num),
    safe_eval host (unqualified e) x_val = safe_eval host e x_val.
Proof.
  intros e x_val. unfold safe_eval. now rewrite eval_unqualified.
Qed.

End Qualified.

(** ** The command line *)

Section CommandLineProperties.

Variable strip : string -> string.
Variable float_of_string : string -> option float.
Variable int_of_string : string -> option Z.
Variable run : cli_call -> console -> option string * console.

Lemma get_float_input_step prompt default value lines written :
  get_float_input strip float_of_string prompt default (value :: lines) written =
  match answer strip float_of_string default value with
  | Some number => (Returned number, Console lines (written ++ [prompt]))
  | None =>
      get_float_input strip float_of_string prompt default lines
        ((written ++ [prompt]) ++ [invalid_number])
  end.
Proof.
  unfold answer. simpl.
  destruct (if String.eqb (strip value) EmptyString then default else None);
    [reflexivity|].
  destruct (float_of_string value); reflexivity.
Qed.

Lemma get_int_input_step prompt default value lines written :
  get_int_input strip int_of_string prompt default (value :: lines) written =
  match answer strip int_of_string default value with
  | Some number => (Returned number, Console lines (written ++ [prompt]))
  | None =>
      get_int_input strip int_of_string prompt default lines
        ((written ++ [prompt]) ++ [invalid_integer])
  end.
Proof.
  unfold answer. simpl.
  destruct (if String.eqb (strip value) EmptyString then default else None);
    [reflexivity|].
  destruct (int_of_string value); reflexivity.
Qed.

Lemma retries_cons prompt complaint line rejected (written tail : list string) :
  ((written ++ [prompt]) ++ [complaint]) ++ retries prompt complaint rejected ++ tail
  = written ++ retries prompt complaint (line :: rejected) ++ tail.
Proof. unfold retries. cbn [flat_map]. now rewrite <- !app_assoc. Qed.

(** Refused lines are skipped, each at the price of a prompt and a
    complaint. *)
Lemma get_float_input_skips prompt default rejected :
  Forall (fun line => answer strip float_of_string default line = None) rejected ->
  forall lines written,
    get_float_input strip float_of_string prompt default (rejected ++ lines) written
    = get_float_input strip float_of_string prompt default lines
        (written ++ retries prompt invalid_number rejected).
Proof.
  induction 1 as [|line rejected Hline _ IH]; intros lines written.
  - unfold retries. cbn [flat_map app]. now rewrite app_nil_r.
  - cbn [app]. rewrite get_float_input_step, Hline, IH.
    unfold retries. cbn [flat_map]. now rewrite <- !app_assoc.
Qed.

Lemma get_int_input_skips prompt default rejected :
  Forall (fun line => answer strip int_of_string default line = None) rejected ->
  forall lines written,
    get_int_input strip int_of_string prompt default (rejected ++ lines) written
    = get_int_input strip int_of_string prompt default lines
        (written ++ retries prompt invalid_integer rejected).
Proof.
  induction 1 as [|line rejected Hline _ IH]; intros lines written.
  - unfold retries. cbn [flat_map app]. now rewrite app_nil_r.
  - cbn [app]. rewrite get_int_input_step, Hline, IH.
    unfold retries. cbn [flat_map]. now rewrite <- !app_assoc.
Qed.

(** X16.  [get_float_input] returns the answer of the first line that gives
    one, leaves the lines after it unread, and before it writes the prompt
    and the complaint once for every refused line; when every line is
    refused it ends in [EOFError] after one more prompt. *)
Theorem get_float_input_first_answer :
  forall prompt default rejected written,
    Forall (fun line => answer strip float_of_string default line = None) rejected ->
    (forall value number lines,
        answer strip float_of_string default value = Some number ->
        get_float_input strip float_of_string prompt default
          (rejected ++ value :: lines) written =
        (Returned number,
         Console lines
           (written ++ retries prompt invalid_number rejected ++ [prompt]))) /\
    get_float_input strip float_of_string prompt default rejected written =
    (EOFError,
     Console [] (written ++ retries prompt invalid_number rejected ++ [prompt])).
Proof.
  intros prompt default rejected written H. split.
  - intros value number lines Hv.
    rewrite (get_float_input_skips _ _ _ H), get_float_input_step, Hv.
    now rewrite <- app_assoc.
  - rewrite <- (app_nil_r rejected) at 1.
    rewrite (get_float_input_skips _ _ _ H). cbn [get_float_input].
    now rewrite <- app_assoc.
Qed.

(** X17.  [get_int_input] does the same with [int] and its own complaint. *)
Theorem get_int_input_first_answer :
  forall prompt default rejected written,
    Forall (fun line => answer strip int_of_string default line = None) rejected ->
    (forall value number lines,
        answer strip int_of_string default value = Some number ->
        get_int_input strip int_of_string prompt default
          (rejected ++ value :: lines) written =
        (Returned number,
         Console lines
           (written ++ retries prompt invalid_integer rejected ++ [prompt]))) /\
    get_int_input strip int_of_string prompt default rejected written =
    (EOFError,
     Console [] (written ++ retries prompt invalid_integer rejected ++ [prompt])).
Proof.
  intros prompt default rejected written H. split.
  - intros value number lines Hv.
    rewrite (get_int_input_skips _ _ _ H), get_int_input_step, Hv.
    now rewrite <- app_assoc.
  - rewrite <- (app_nil_r rejected) at 1.
    rewrite (get_int_input_skips _ _ _ H). cbn [get_int_input].
    now rewrite <- app_assoc.
Qed.

Lemma banner_printed (c : console) :
  fold_left (fun c text => print text c) banner c
  = Console (stdin c) (stdout c ++ banner).
Proof.
  unfold banner, print. cbn [fold_left stdin stdout].
  now rewrite <- !app_assoc.
Qed.

(** X18.  When the first line that [int] accepts is not one of 1 to 6,
    [main] writes the banner, the prompt once for each refused line and for
    the accepted one, then the complaint about the selection, and returns:
    it reads nothing further and runs no solver. *)
Theorem main_invalid_selection :
  forall (c : console) rejected value method lines,
    stdin c = rejected ++ value :: lines ->
    Forall (fun line => answer strip int_of_string None line = None) rejected ->
    answer strip int_of_string None value = Some method ->
    (method < 1 \/ 6 < method)%Z ->
    main strip float_of_string int_of_string run c =
    (Finished,
     Console lines
       (stdout c ++ banner
          ++ retries select_method invalid_integer rejected
          ++ [select_method; "Invalid method selection."])).
Proof.
  intros c rejected value method lines Hin Hrej Hval Hout.
  unfold main. rewrite banner_printed. cbn [stdin stdout]. rewrite Hin.
  rewrite (get_int_input_skips _ _ _ Hrej), get_int_input_step, Hval.
  replace (existsb (Z.eqb method) [1; 2; 3; 4; 5; 6]%Z) with false.
  - unfold print. cbn [negb stdin stdout]. now rewrite <- !app_assoc.
  - symmetry. cbn [existsb]. repeat rewrite orb_false_iff.
    repeat split; try apply Z.eqb_neq; try lia.
Qed.

Lemma get_int_input_eof prompt default lines written c :
  get_int_input strip int_of_string prompt default lines written = (EOFError, c) ->
  stdin c = [].
Proof.
  revert written. induction lines as [|value lines IH]; intros written H.
  - injection H as <-. reflexivity.
  - rewrite get_int_input_step in H.
    destruct (answer strip int_of_string default value); [discriminate H|].
    exact (IH _ H).
Qed.

Lemma get_float_input_eof prompt default lines written c :
  get_float_input strip float_of_string prompt default lines written
    = (EOFError, c) ->
  stdin c = [].
Proof.
  revert written. induction lines as [|value lines IH]; intros written H.
  - injection H as <-. reflexivity.
  - rewrite get_float_input_step in H.
    destruct (answer strip float_of_string default value); [discriminate H|].
    exact (IH _ H).
Qed.

Lemma input_eof prompt c c' :
  input prompt c = (EOFError, c') -> stdin c' = [].
Proof.
  unfold input. destruct (stdin c); intros H; [|discriminate H].
  injection H as <-. reflexivity.
Qed.

Lemma read_float_raises prompt default c k e c' :
  read_float strip float_of_string prompt default c k = (Some e, c') ->
  (exists number c0, k number c0 = (Some e, c')) \/
  (e = eof_message /\ stdin c' = []).
Proof.
  unfold read_float.
  destruct (get_float_input _ _ _ _ _ _) as [[number|] c0] eqn:E; intros H.
  - left. now exists number, c0.
  - right. injection H as <- <-. apply get_float_input_eof in E. now split.
Qed.

(** What the [try] block raises comes from the solver it ran or from the
    end of the input. *)
Lemma selected_raises method expr tol max_iter c e c' :
  selected strip float_of_string run method expr tol max_iter c = (Some e, c') ->
  (exists call c0, run call c0 = (Some e, c')) \/
  (e = eof_message /\ stdin c' = []).
Proof.
  unfold selected. intros H.
  repeat match type of H with
         | (if ?b then _ else _) = _ => destruct b
         | read_float _ _ _ _ _ _ = _ =>
             apply read_float_raises in H;
             destruct H as [(? & ? & H)|H]; [|now right]
         | match input ?p ?c with _ => _ end = _ =>
             let E := fresh "E" in
             destruct (input p c) as [[?|] ?] eqn:E;
             [|apply input_eof in E; injection H as <- <-; now right]
         end;
    try discriminate H; left; eauto.
Qed.

(** X19.  How [main] ends shows in the terminal.  It leaves through
    [sys.exit] with status 1 only, after an error line whose message is that
    of an exception the solver raised or that of the input ending inside the
    [try] block; an uncaught [EOFError] leaves no line unread. *)
Theorem main_ending :
  forall (c c' : console) (status : ending),
    main strip float_of_string int_of_string run c = (status, c') ->
    match status with
    | Finished => True
    | SystemExit code =>
        code = 1%Z /\
        exists e c0,
          c' = print (newline ++ "Error: " ++ e)%string c0 /\
          ((exists call c1, run call c1 = (Some e, c0)) \/
           (e = eof_message /\ stdin c0 = []))
    | Uncaught_EOFError => stdin c' = []
    end.
Proof.
  intros c c' status H. unfold main in H.
  repeat match type of H with
         | context [match ?m with _ => _ end] =>
             lazymatch m with
             | get_int_input _ _ _ _ _ _ =>
                 let E := fresh "E" in
                 destruct m as [[?|] ?] eqn:E;
                 [|apply get_int_input_eof in E]
             | get_float_input _ _ _ _ _ _ =>
                 let E := fresh "E" in
                 destruct m as [[?|] ?] eqn:E;
                 [|apply get_float_input_eof in E]
             | input _ _ =>
                 let E := fresh "E" in
                 destruct m as [[?|] ?] eqn:E;
                 [|apply input_eof in E]
             | selected _ _ _ _ _ _ _ _ =>
                 let E := fresh "E" in
                 destruct m as [[?|] ?] eqn:E;
                 [apply selected_raises in E|]
             end
         | context [if ?b then _ else _] => destruct b
         end;
    injection H as <- <-; auto.
  split; [reflexivity|]. eexists _, _. split; [reflexivity|eassumption].
Qed.

End CommandLineProperties.

(** ** Runs of the further properties *)

(** The secant method on [x*x - 2] from [1.0] and [2.0]. *)
Lemma result_reports_value_at_root_witness :
  exists r,
    solve arith_host (secant x_squared_minus_2 1%float 2%float 1e-6%float 100) = Ok r /\
    safe_eval arith_host x_squared_minus_2 (root r) = Ok (fx r).
Proof.
  eexists. split; [vm_compute; reflexivity|].
  apply (result_reports_value_at_root arith_host
           (secant x_squared_minus_2 1%float 2%float 1e-6%float 100)).
  vm_compute. reflexivity.
Defined.

(** Bisection of [10*x - 9] on [[0, 1]] with tolerance [0.25] takes three
    passes: a bound of three is enough, a bound of two is not. *)
Lemma result_independent_of_budget_witness :
  let q := bisection (ten_x_minus_9 10%float 9%float) 0%float 1%float 0.25%float 100 in
  exists r,
    solve arith_host q = Ok r /\
    total_iterations r = 3%Z /\
    solve arith_host (with_max_iterations q 3) = Ok r /\
    solve arith_host (with_max_iterations q 2) = Raise ConvergenceError.
Proof.
  intros q.
  assert (H : exists r, solve arith_host q = Ok r /\ total_iterations r = 3%Z)
    by (eexists; split; [vm_compute; reflexivity|reflexivity]).
  destruct H as (r & H & Hn). exists r.
  split; [exact H|]. split; [exact Hn|]. split.
  - apply (proj1 (result_independent_of_budget arith_host q r 3 H)).
    rewrite Hn. lia.
  - apply (proj2 (result_independent_of_budget arith_host q r 2 H)).
    rewrite Hn. lia.
Defined.

(** [x*x - 2] at [0.0]: the central difference is [0.0]. *)
Lemma newton_raphson_guard_witness :
  safe_eval arith_host x_squared_minus_2 0%float = Ok (VNum (-2)%float) /\
  derivative arith_host x_squared_minus_2 0%float h_default = Ok 0%float /\
  (1 <= 100)%Z /\
  ltb (abs 0%float) tiny = true /\
  newton_raphson_method arith_host x_squared_minus_2 0%float 1e-6%float 100
    = Raise SingularityError_newton.
Proof.
  assert (Hf : safe_eval arith_host x_squared_minus_2 0%float = Ok (VNum (-2)%float))
    by (vm_compute; reflexivity).
  assert (Hd : derivative arith_host x_squared_minus_2 0%float h_default = Ok 0%float)
    by (vm_compute; reflexivity).
  split; [exact Hf|]. split; [exact Hd|]. split; [lia|].
  split; [vm_compute; reflexivity|].
  apply (proj2 (newton_raphson_guard arith_host x_squared_minus_2 1e-6%float
                  0%float (-2)%float 0%float Hf Hd) 100%Z).
  - lia.
  - vm_compute. reflexivity.
Defined.

(** The constant [5.0] at [1.0] with [delta = 0.01]. *)
Lemma modified_secant_guard_witness :
  safe_eval arith_host (Constant 5%float) 1%float = Ok (VNum 5%float) /\
  safe_eval arith_host (Constant 5%float) (1 + 0.01 * 1)%float = Ok (VNum 5%float) /\
  (1 <= 100)%Z /\
  ltb (abs (5 - 5)%float) tiny = true /\
  modified_secant_method arith_host (Constant 5%float) 1%float 0.01%float 1e-6%float 100
    = Raise SingularityError_modified_secant.
Proof.
  assert (Hf : safe_eval arith_host (Constant 5%float) 1%float = Ok (VNum 5%float))
    by reflexivity.
  assert (Hd : safe_eval arith_host (Constant 5%float) (1 + 0.01 * 1)%float
               = Ok (VNum 5%float)) by reflexivity.
  split; [exact Hf|]. split; [exact Hd|]. split; [lia|].
  split; [vm_compute; reflexivity|].
  apply (proj2 (modified_secant_guard arith_host (Constant 5%float) 0.01%float
                  1e-6%float 1%float 5%float 5%float Hf Hd) 100%Z).
  - lia.
  - vm_compute. reflexivity.
Defined.

(** Regula falsi on [x*x + 1] from [-1.0] and [1.0] divides by zero. *)
Lemma exception_origin_witness :
  let q := regula_falsi x_squared_plus_1 (-1)%float 1%float 1e-6%float 100 in
  Forall (float_valued arith_host) (expressions q) /\
  solve arith_host q = Raise zero_division /\ may_raise q zero_division.
Proof.
  intros q.
  assert (Hfv : Forall (float_valued arith_host) (expressions q)).
  { constructor; [|constructor]. intros x v H. vm_compute in H.
    injection H as <-. eauto. }
  split; [exact Hfv|]. split; [vm_compute; reflexivity|].
  apply (exception_origin arith_host q _ Hfv). vm_compute. reflexivity.
Defined.

(** The constant [5.0] from [1.0]. *)
Lemma newton_raphson_flat_witness :
  (1 <= 100)%Z /\
  safe_eval arith_host (Constant 5%float) 1%float = Ok (VNum 5%float) /\
  safe_eval arith_host (Constant 5%float) (1 + 1e-7)%float = Ok (VNum 5%float) /\
  safe_eval arith_host (Constant 5%float) (1 - 1e-7)%float = Ok (VNum 5%float) /\
  isfinite 5%float = true /\
  newton_raphson_method arith_host (Constant 5%float) 1%float 1e-6%float 100
    = Raise SingularityError_newton.
Proof.
  split; [lia|]. do 4 (split; [reflexivity|]).
  apply (newton_raphson_flat arith_host (Constant 5%float) 1%float 1e-6%float 100
           5%float 5%float); [lia|reflexivity..].
Defined.

(** Bisection of [10*x - 9] on [[0, 1]] with tolerance [0.25]: the
    brackets [[0, 1]], [[0.5, 1]] and [[0.75, 1]]. *)
Lemma bisection_follows_sign_test_witness :
  let e := ten_x_minus_9 10%float 9%float in
  exists r,
    bisection_method arith_host e 0%float 1%float 0.25%float 100 = Ok r /\
    map row_candidate (iterations r) = [0.5%float; 0.75%float; 0.875%float] /\
    exists fa,
      safe_eval arith_host e 0%float = Ok (VNum fa) /\
      bisection_trace arith_host e 0%float 1%float fa (iterations r).
Proof.
  intros e.
  assert (Hrun : exists r,
             bisection_method arith_host e 0%float 1%float 0.25%float 100 = Ok r /\
             map row_candidate (iterations r)
               = [0.5%float; 0.75%float; 0.875%float])
    by (eexists; split; vm_compute; reflexivity).
  destruct Hrun as (r & Hr & Hc). exists r.
  split; [exact Hr|]. split; [exact Hc|].
  exact (bisection_follows_sign_test arith_host e 0%float 1%float 0.25%float 100
           r Hr).
Defined.

(** Regula falsi on [x*x - 2] between [1.0] and [2.0]. *)
Lemma regula_falsi_follows_sign_test_witness :
  exists r,
    regula_falsi_method arith_host x_squared_minus_2 1%float 2%float 1e-6%float 100
      = Ok r /\
    false_position_trace arith_host x_squared_minus_2 1%float 2%float (iterations r).
Proof.
  assert (Hrun : exists r,
             regula_falsi_method arith_host x_squared_minus_2 1%float 2%float
               1e-6%float 100 = Ok r)
    by (eexists; vm_compute; reflexivity).
  destruct Hrun as (r & Hr). exists r. split; [exact Hr|].
  exact (regula_falsi_follows_sign_test arith_host x_squared_minus_2 1%float
           2%float 1e-6%float 100 r Hr).
Defined.

(** Fixed-point iteration of [(x + 2/x)/2] from [1.0]. *)
Lemma result_closes_trace_witness :
  exists r,
    solve arith_host (fixed_point x_squared_minus_2 heron_step 1%float 1e-6%float 100)
      = Ok r /\
    closes_trace r.
Proof.
  eexists. split; [vm_compute; reflexivity|].
  apply (result_closes_trace arith_host
           (fixed_point x_squared_minus_2 heron_step 1%float 1e-6%float 100)).
  vm_compute. reflexivity.
Defined.

(** The same iteration from [2.0]. *)
Lemma fixed_point_follows_orbit_witness :
  exists r,
    fixed_point_method arith_host x_squared_minus_2 heron_step 2%float 1e-6%float 100
      = Ok r /\
    orbit arith_host heron_step 2%float (iterations r) (root r).
Proof.
  eexists. split; [vm_compute; reflexivity|].
  apply (fixed_point_follows_orbit arith_host x_squared_minus_2 heron_step 2%float
           1e-6%float 100).
  vm_compute. reflexivity.
Defined.

(** Regula falsi on [x*x - 2] between [1.0] and [2.0]: nine rows. *)
Lemma regula_falsi_errors_chain_witness :
  exists r,
    regula_falsi_method arith_host x_squared_minus_2 1%float 2%float 1e-6%float 100
      = Ok r /\
    total_iterations r = 9%Z /\
    chained_errors None (iterations r).
Proof.
  eexists. split; [vm_compute; reflexivity|]. split; [reflexivity|].
  apply (regula_falsi_errors_chain arith_host x_squared_minus_2 1%float 2%float
           1e-6%float 100).
  vm_compute. reflexivity.
Defined.

(** The modified secant method on [x*x - 2] from [1.0]. *)
Lemma returns_only_with_positive_tolerance_witness :
  let q := modified_secant x_squared_minus_2 1%float 0.01%float 1e-6%float 100 in
  exists r, solve arith_host q = Ok r /\ ltb 0%float (tolerance q) = true.
Proof.
  intros q. eexists. split; [vm_compute; reflexivity|].
  eapply (returns_only_with_positive_tolerance arith_host q).
  vm_compute. reflexivity.
Defined.

(** The secant method on [x*x - 2] with no pass allowed. *)
Lemma no_budget_no_pass_witness :
  (0 <= 0)%Z /\
  secant_method arith_host x_squared_minus_2 1%float 2%float 1e-6%float 0
    = Raise ConvergenceError.
Proof.
  split; [lia|].
  destruct (no_budget_no_pass arith_host 0 ltac:(lia)) as (_ & H & _).
  apply H.
Defined.

(** [g(x) = x] from [3.0], where [x*x - 2] is [7.0]. *)
Lemma fixed_point_returns_fixed_point_witness :
  (1 <= 100)%Z /\
  ltb 0%float 1e-6%float = true /\
  isfinite 3%float = true /\
  safe_eval arith_host just_x 3%float = Ok (VNum 3%float) /\
  safe_eval arith_host x_squared_minus_2 3%float = Ok (VNum 7%float) /\
  fixed_point_method arith_host x_squared_minus_2 just_x 3%float 1e-6%float 100 =
  Ok {| root := 3%float;
        iterations := [FixedPointRow 1 3%float 3%float 7%float 0%float];
        total_iterations := 1;
        final_error := 0%float;
        fx := VNum 7%float |}.
Proof.
  split; [lia|]. do 4 (split; [vm_compute; reflexivity|]).
  apply (fixed_point_returns_fixed_point arith_host x_squared_minus_2 just_x
           3%float 1e-6%float 100 7%float);
    [lia|vm_compute; reflexivity..].
Defined.

(** Two refused lines, then [42]. *)
Lemma get_float_input_first_answer_witness :
  Forall (fun line => answer simple_strip simple_float None line = None) ["abc"; " "] /\
  answer simple_strip simple_float None "42" = Some 42%float /\
  get_float_input simple_strip simple_float "x0: " None ["abc"; " "; "42"; "7"] [] =
  (Returned 42%float,
   Console ["7"] ["x0: "; invalid_number; "x0: "; invalid_number; "x0: "]).
Proof.
  assert (H : Forall (fun line => answer simple_strip simple_float None line = None)
                ["abc"; " "]) by (repeat constructor).
  split; [exact H|]. split; [vm_compute; reflexivity|].
  exact (proj1 (get_float_input_first_answer simple_strip simple_float "x0: " None
                  ["abc"; " "] [] H) "42" 42%float ["7"]
               ltac:(vm_compute; reflexivity)).
Defined.

(** Two refused lines, then a blank line, which gives the default. *)
Lemma get_int_input_first_answer_witness :
  Forall (fun line => answer simple_strip simple_int (Some 100%Z) line = None)
    ["ten"; "1.5"] /\
  answer simple_strip simple_int (Some 100%Z) " " = Some 100%Z /\
  get_int_input simple_strip simple_int "n: " (Some 100%Z) ["ten"; "1.5"; " "; "7"] [] =
  (Returned 100%Z,
   Console ["7"] ["n: "; invalid_integer; "n: "; invalid_integer; "n: "]).
Proof.
  assert (H : Forall (fun line => answer simple_strip simple_int (Some 100%Z) line = None)
                ["ten"; "1.5"]) by (repeat constructor).
  split; [exact H|]. split; [vm_compute; reflexivity|].
  exact (proj1 (get_int_input_first_answer simple_strip simple_int "n: " (Some 100%Z)
                  ["ten"; "1.5"] [] H) " " 100%Z ["7"]
               ltac:(vm_compute; reflexivity)).
Defined.

(** The lines [x] and [7]: the first is no integer, the second no method. *)
Lemma main_invalid_selection_witness :
  let c := Console ["x"; "7"; "x**2 - 2"] [] in
  stdin c = ["x"] ++ "7" :: ["x**2 - 2"] /\
  Forall (fun line => answer simple_strip simple_int None line = None) ["x"] /\
  answer simple_strip simple_int None "7" = Some 7%Z /\
  (7 < 1 \/ 6 < 7)%Z /\
  main simple_strip simple_float simple_int quiet_run c =
  (Finished,
   Console ["x**2 - 2"]
     (banner ++ [select_method; invalid_integer; select_method;
                 "Invalid method selection."])).
Proof.
  intros c.
  assert (H : Forall (fun line => answer simple_strip simple_int None line = None) ["x"])
    by (repeat constructor).
  split; [reflexivity|]. split; [exact H|]. split; [vm_compute; reflexivity|].
  split; [right; lia|].
  exact (main_invalid_selection simple_strip simple_float simple_int quiet_run c
           ["x"] "7" 7%Z ["x**2 - 2"] eq_refl H
           ltac:(vm_compute; reflexivity) ltac:(right; lia)).
Defined.

(** Newton-Raphson chosen, the defaults taken on two blank lines, and a
    solver that raises. *)
Lemma main_ending_witness :
  let c := Console ["4"; "x**2 - 2"; " "; " "; "1"] [] in
  exists c',
    main simple_strip simple_float simple_int failing_run c = (SystemExit 1, c') /\
    stdin c' = [] /\
    exists e c0,
      c' = print (newline ++ "Error: " ++ e)%string c0 /\
      ((exists call c1, failing_run call c1 = (Some e, c0)) \/
       (e = eof_message /\ stdin c0 = [])).
Proof.
  intros c. eexists. split; [vm_compute; reflexivity|]. split; [reflexivity|].
  apply (main_ending simple_strip simple_float simple_int failing_run c _
           (SystemExit 1)).
  vm_compute. reflexivity.
Defined.
